(** * math-functions: the activation functions of [include/math-functions.hpp]

    The header is a namespace [fn_math] of function templates over a scalar
    type [T] (default [double]).  Each template is embedded once, over an
    interface that lists what the template asks of [T], and read at two
    instantiations:

    - [T = double]: IEEE 754 binary64, Rocq's primitive [float], with the
      <cmath> functions taken as parameters (and a reference implementation
      of them to evaluate concrete calls);
    - [T = R]: exact real arithmetic, the reading under which the formulas
      in the comments of the header are usually stated.

    [MaxoutFn], the one template over a [std::vector<T>], is embedded as
    the statement of its body. *)

From Stdlib Require Import ZArith QArith Qreals Floats Reals Lra Lia Bool List.
Import ListNotations.

Set Implicit Arguments.
Set Warnings "-inexact-float".

(** ** What the templates require of [T] *)

(** Arithmetic, comparison and conversion from a numeric literal.  The
    header only compares with [<] and [>]; [x > y] is [y < x].  [sqrt] is
    listed with the arithmetic: IEEE 754 specifies it as a correctly rounded
    basic operation, so for [double] it is not left to the implementation.

    [lit] gives a literal its value in [T].  In the header the literals
    0.01, 1.0507, 1.67326 and 1.0 / 2.0 have type [double] whatever [T] is:
    at a narrower [T], as [float], the source forms a product such as
    0.01 * x in [double] and narrows it on return.  The templates are
    therefore read at [T = double] and at [T = R] only, where the value of
    a literal in [T] is the value the source computes with. *)
Class Scalar (T : Type) : Type := {
  lit : Q -> T;
  add : T -> T -> T;
  sub : T -> T -> T;
  mul : T -> T -> T;
  div : T -> T -> T;
  opp : T -> T;
  ltb : T -> T -> bool;
  sqrt : T -> T
}.

(** The functions of <cmath> whose accuracy the language leaves to the
    implementation.  [pow] is only ever called with the integer literal 2 as
    exponent, so the exponent is a natural number. *)
Class CMath (T : Type) : Type := {
  exp : T -> T;
  log : T -> T;
  pow : T -> nat -> T
}.

(** [erf] and [tanh], used by one function each. *)
Class CMathSpecial (T : Type) : Type := {
  erf : T -> T;
  tanh : T -> T
}.

Declare Scope scalar_scope.
Delimit Scope scalar_scope with sc.
Infix "+" := add : scalar_scope.
Infix "-" := sub : scalar_scope.
Infix "*" := mul : scalar_scope.
Infix "/" := div : scalar_scope.
Notation "- x" := (opp x) : scalar_scope.
Notation "x <? y" := (ltb x y) : scalar_scope.
Notation "x >? y" := (ltb y x) (only parsing) : scalar_scope.

(** ** The C++ constructs of MaxoutFn

    [MaxoutFn] is the one function of the header that is not a formula over
    [T]: its body applies [std::max_element] to members of a
    [std::vector<T>].  The constructs it is built from are embedded with
    their typing rules and their evaluation, over a vector given as the list
    of its elements and iterators given as positions in it. *)
Module Cpp.
Inductive member : Type := m_begin | m_end | m_empty.

Inductive ty : Type :=
| TScalar      (* T *)
| TBool
| TVector      (* std::vector<T> *)
| TIterator    (* std::vector<T>::iterator *)
| TMemberFn.   (* a member function that is named and not called *)

Inductive expr : Type :=
| Param                            (* x *)
| MemberName (e : expr) (m : member)   (* e.m *)
| MemberCall (e : expr) (m : member)   (* e.m() *)
| MaxElement (first last : expr)   (* std::max_element(first, last) *)
| Deref (e : expr).                (* *e *)

(** std::invalid_argument and std::out_of_range *)
Inductive exception : Type := InvalidArgument | OutOfRange.

Inductive stmt : Type :=
| Return (e : expr)                               (* return e; *)
| ThrowIf (c : expr) (ex : exception) (k : stmt). (* if (c) throw ex; k *)

Definition member_ty (m : member) : ty :=
  match m with m_begin | m_end => TIterator | m_empty => TBool end.

(** [std::max_element] deduces one iterator type from both arguments;
    no other pair of argument types is accepted. *)
Fixpoint type_of (e : expr) : option ty :=
  match e with
  | Param => Some TVector
  | MemberName e' _ =>
      match type_of e' with Some TVector => Some TMemberFn | _ => None end
  | MemberCall e' m =>
      match type_of e' with Some TVector => Some (member_ty m) | _ => None end
  | MaxElement a b =>
      match type_of a, type_of b with
      | Some TIterator, Some TIterator => Some TIterator
      | _, _ => None
      end
  | Deref e' =>
      match type_of e' with Some TIterator => Some TScalar | _ => None end
  end.

(** A body of a function returning [T] is well formed when every
    returned expression has type [T] and every condition is a [bool]. *)
Fixpoint well_formed (s : stmt) : bool :=
  match s with
  | Return e =>
      match type_of e with Some TScalar => true | _ => false end
  | ThrowIf c _ k =>
      match type_of c with Some TBool => well_formed k | _ => false end
  end.

Section Run.
Context {T : Type} {scalar : Scalar T}.

Inductive value : Type :=
| VScalar (v : T)
| VBool (b : bool)
| VVector (l : list T)
| VIter (pos : nat).

Inductive outcome : Type :=
| Returns (v : T)
| Throws (ex : exception)
| Undefined     (* undefined behaviour, as reading through end() *)
| IllFormed.    (* rejected by the compiler: there is no call *)

(** the loop of [std::max_element]: [largest] moves to a position
    only when the element there is strictly greater *)
Fixpoint max_element_loop (l : list T) (pos largest : nat) (lv : T)
  : nat :=
  match l with
  | [] => largest
  | v :: l' =>
      if ltb lv v
      then max_element_loop l' (S pos) pos v
      else max_element_loop l' (S pos) largest lv
  end.

(** [std::max_element] over the positions [first, last) of [l];
    it returns [last] for an empty range *)
Definition max_element (l : list T) (first last : nat) : nat :=
  match skipn first (firstn last l) with
  | [] => last
  | v :: l' => max_element_loop l' (S first) first v
  end.

Fixpoint eval (x : list T) (e : expr) : option value :=
  match e with
  | Param => Some (VVector x)
  | MemberName _ _ => None
  | MemberCall e' m =>
      match eval x e', m with
      | Some (VVector l), m_begin => Some (VIter 0)
      | Some (VVector l), m_end => Some (VIter (length l))
      | Some (VVector l), m_empty =>
          Some (VBool (Nat.eqb (length l) 0))
      | _, _ => None
      end
  | MaxElement a b =>
      match eval x a, eval x b with
      | Some (VIter i), Some (VIter j) => Some (VIter (max_element x i j))
      | _, _ => None
      end
  | Deref e' =>
      match eval x e' with
      | Some (VIter i) => option_map VScalar (nth_error x i)
      | _ => None
      end
  end.

Fixpoint exec (x : list T) (s : stmt) : outcome :=
  match s with
  | Return e =>
      match eval x e with
      | Some (VScalar v) => Returns v
      | _ => Undefined
      end
  | ThrowIf c ex k =>
      match eval x c with
      | Some (VBool true) => Throws ex
      | Some (VBool false) => exec x k
      | _ => Undefined
      end
  end.

Definition call (body : stmt) (x : list T) : outcome :=
  if well_formed body then exec x body else IllFormed.
End Run.
End Cpp.

(** ** namespace fn_math *)
Module fn_math.
Section Templates.
Context {T : Type} {scalar : Scalar T} {cmath : CMath T}
        {special : CMathSpecial T}.
Local Open Scope scalar_scope.

(** [unsigned short BinaryStepFn(T x)]: the result is 0 or 1, so the
    16-bit wrap-around of the return type never applies. *)
Definition BinaryStepFn (x : T) : Z :=
  if x <? lit 0 then 0%Z else 1%Z.

Definition ExponentialLinearUnitFn (a x : T) : T :=
  if x >? lit 0 then x else a * (exp x - lit 1).

Definition GaussianFn (x : T) : T :=
  exp (- pow x 2).

Definition GaussianErrorLinearUnitFn (x : T) : T :=
  lit 1.0 / lit 2.0 * x * (lit 1 + erf (x / sqrt (lit 2))).

Definition GaussianRBFFn (x c sigma : T) : T :=
  exp (- pow (x - c) 2 / (lit 2 * pow sigma 2)).

Definition HeavisideFn (a x b : T) : T :=
  if a * x + b >? lit 0 then lit 1 else lit 0.

Definition HyperbolicTangentFn (x : T) : T :=
  (exp x - exp (- x)) / (exp x + exp (- x)).

Definition IdentityFn (x : T) : T := x.

Definition LeakyRectifiedLinearUnitFn (x : T) : T :=
  if x <? lit 0 then lit 0.01 * x else x.

Definition LinearFn (a x b : T) : T := a * x + b.

Definition LogisticFn (x : T) : T :=
  lit 1 / (lit 1 + exp (- x)).

(** [return std::max_element(x.begin, x.end);]: the member functions
    [begin] and [end] are named and not called, and what [std::max_element]
    yields is returned as it is. *)
Definition MaxoutFn_body : Cpp.stmt :=
  Cpp.Return (Cpp.MaxElement (Cpp.MemberName Cpp.Param Cpp.m_begin)
                             (Cpp.MemberName Cpp.Param Cpp.m_end)).

Definition MaxoutFn (x : list T) : Cpp.outcome :=
  Cpp.call MaxoutFn_body x.

Definition MishFn (x : T) : T :=
  x * tanh (log (lit 1 + exp x)).

Definition MultiquadraticsFn (x c a : T) : T :=
  sqrt (pow (x - c) 2 + pow a 2).

Definition ParametricRectifiedLinearUnitFn (a x : T) : T :=
  if x <? lit 0 then a * x else x.

Definition RectifiedLinearUnitFn (x : T) : T :=
  if x >? lit 0 then x else lit 0.

Definition ScaledExponentialLinearUnitFn (x : T) : T :=
  if x <? lit 0
  then lit 1.0507 * lit 1.67326 * (exp x - lit 1)
  else lit 1.0507 * x.

Definition SigmoidLinearUnitFn (x : T) : T :=
  x / (lit 1 + exp (- x)).

Definition SoftplusFn (x : T) : T :=
  log (lit 1 + exp x).
End Templates.
End fn_math.
Import fn_math.

(** What the specification describes for Maxout instead: a check for the
    empty sequence, then the greatest element. *)
Definition MaxoutFn_described_body : Cpp.stmt :=
  Cpp.ThrowIf (Cpp.MemberCall Cpp.Param Cpp.m_empty) Cpp.InvalidArgument
    (Cpp.Return
       (Cpp.Deref (Cpp.MaxElement (Cpp.MemberCall Cpp.Param Cpp.m_begin)
                                  (Cpp.MemberCall Cpp.Param Cpp.m_end)))).

Definition MaxoutFn_described {T : Type} {scalar : Scalar T} (x : list T)
  : Cpp.outcome :=
  Cpp.call MaxoutFn_described_body x.

(** ** T = double: IEEE 754 binary64 *)

(** The value of a decimal literal: the quotient of two integers below 2^53
    is rounded once, to nearest, as a compiler rounds the literal. *)
Definition double_of_Z (z : Z) : float :=
  SF2Prim (binary_normalize prec emax z 0 false).

Definition double_of_Q (q : Q) : float :=
  PrimFloat.div (double_of_Z (Qnum q)) (double_of_Z (Zpos (Qden q))).

#[global] Instance double_scalar : Scalar float := {|
  lit := double_of_Q;
  add := PrimFloat.add;
  sub := PrimFloat.sub;
  mul := PrimFloat.mul;
  div := PrimFloat.div;
  opp := PrimFloat.opp;
  ltb := PrimFloat.ltb;
  sqrt := PrimFloat.sqrt
|}.

(** Two results are the same value when they are identical (which includes
    NaN on both sides) or compare equal with [==] (which identifies +0 and
    -0). *)
Definition same_value (a b : float) : Prop :=
  a = b \/ PrimFloat.eqb a b = true.

(** A reference <cmath> for [double].  The C++ standard library is not part
    of the header, so its functions stay parameters of the templates
    ([CMath]); this module gives one implementation of them, to evaluate
    concrete calls.  Each function is computed on integers scaled by 2^300
    and rounded once, to nearest even, by [binary_normalize]; special values
    follow Annex F of the C standard. *)
Module RefLibm.
Definition p : Z := 300.
Definition one : Z := 2 ^ p.
Definition fmul (a b : Z) : Z := Z.shiftr (a * b) p.

(** sum of t^k / k over the n odd k from [k] on, with [tk] = t^k and
    [t2] = t^2: the series of atanh *)
Fixpoint atanh_series (n : nat) (k tk t2 acc : Z) : Z :=
  match n with
  | O => acc
  | S n' => atanh_series n' (k + 2) (fmul tk t2) t2 (acc + tk / k)
  end.

(** ln 2 = 2 atanh (1/3) *)
Definition ln2 : Z := 2 * atanh_series 100 1 (one / 3) (one / 9) 0.

(** sum of r^i / i! over the n indices from [i - 1] on, with [term]
    the current summand *)
Fixpoint exp_series (n : nat) (i term r acc : Z) : Z :=
  match n with
  | O => acc
  | S n' => exp_series n' (i + 1) (fmul term r / i) r (acc + term)
  end.

Definition cond_opp (s : bool) (z : Z) : Z := if s then (- z)%Z else z.

Definition round (m e : Z) : float :=
  SF2Prim (binary_normalize prec emax m e false).

(** e^x = 2^k e^r with k the integer nearest to x / ln 2 *)
Definition exp (x : float) : float :=
  match Prim2SF x with
  | S754_nan => nan
  | S754_infinity false => infinity
  | S754_infinity true => 0%float
  | S754_zero _ => 1%float
  | S754_finite s m e =>
      if (11 <=? Z.log2 (Zpos m) + 1 + e)%Z
      then (if s then 0%float else infinity)
      else
        let X := cond_opp s (Z.shiftl (Zpos m) (e + p)) in
        let k := ((2 * X + ln2) / (2 * ln2))%Z in
        let r := (X - k * ln2)%Z in
        round (exp_series 80 1 one r 0) (k - p)
  end.

(** ln (m 2^e) = (e + d) ln 2 + ln y with y = m / 2^d in [1, 2), and
    ln y = 2 atanh ((y - 1) / (y + 1)) *)
Definition log (x : float) : float :=
  match Prim2SF x with
  | S754_nan => nan
  | S754_zero _ => neg_infinity
  | S754_infinity false => infinity
  | S754_infinity true => nan
  | S754_finite true _ _ => nan
  | S754_finite false m e =>
      let d := Z.log2 (Zpos m) in
      let Y := Z.shiftl (Zpos m) (p - d) in
      let t := ((Y - one) * one / (Y + one))%Z in
      round ((e + d) * ln2 + 2 * atanh_series 100 1 t (fmul t t) 0) (- p)
  end.

(** x^n for an integer n >= 0: the exact power, rounded once *)
Definition pow (x : float) (n : nat) : float :=
  match n with
  | O => 1%float
  | _ =>
      match Prim2SF x with
      | S754_nan => nan
      | S754_infinity s => if s && Nat.odd n then neg_infinity else infinity
      | S754_zero s => if s && Nat.odd n then (-0)%float else 0%float
      | S754_finite s m e =>
          round (cond_opp (s && Nat.odd n) (Zpos m ^ Z.of_nat n))
                (e * Z.of_nat n)
      end
  end.
End RefLibm.

Definition reference_cmath : CMath float := {|
  exp := RefLibm.exp;
  log := RefLibm.log;
  pow := RefLibm.pow
|}.

(** ** T = R: exact real arithmetic *)

#[global] Instance real_scalar : Scalar R := {|
  lit := Q2R;
  add := Rplus;
  sub := Rminus;
  mul := Rmult;
  div := Rdiv;
  opp := Ropp;
  ltb := fun x y => if Rlt_dec x y then true else false;
  sqrt := R_sqrt.sqrt
|}.

#[global] Instance real_cmath : CMath R := {|
  exp := Rtrigo_def.exp;
  log := ln;
  pow := Rpow_def.pow
|}.

(** [tanh], and an [erf] left open: the Standard Library has none. *)
Definition real_special (erf_R : R -> R) : CMathSpecial R := {|
  erf := erf_R;
  tanh := Rtrigo_def.tanh
|}.

(** The reference <cmath> continued: [tanh] and [erf] for [double], computed
    and rounded as the functions of [RefLibm]. *)
Module RefLibmSpecial.
Import RefLibm.

(** e^x for x = X / 2^300, as a mantissa scaled by 2^300 and a binary
    exponent *)
Definition exp_fixed (X : Z) : Z * Z :=
  let k := ((2 * X + ln2) / (2 * ln2))%Z in
  (exp_series 80 1 one (X - k * ln2) 0, k).

(** tanh y = (E - 1/E) / (E + 1/E) with E = e^|y|; below 2^-30 the result
    rounds to y, from 32 on to 1 *)
Definition tanh (y : float) : float :=
  match Prim2SF y with
  | S754_nan => nan
  | S754_zero _ => y
  | S754_infinity s => if s then (-1)%float else 1%float
  | S754_finite s m e =>
      let mag := (Z.log2 (Zpos m) + 1 + e)%Z in
      if (6 <=? mag)%Z then (if s then (-1)%float else 1%float)
      else if (mag <=? -30)%Z then y
      else
        let '(M, k) := exp_fixed (Z.shiftl (Zpos m) (e + p)) in
        let A := Z.shiftl M k in
        let B := (one * one / A)%Z in
        round (cond_opp s ((A - B) * one / (A + B))) (- p)
  end.

(** atan t, by the series of atanh with the square negated *)
Definition atan_fixed (t : Z) : Z :=
  atanh_series 120 1 t (- fmul t t) 0.

(** pi = 16 atan (1/5) - 4 atan (1/239) *)
Definition pi_fixed : Z :=
  (16 * atan_fixed (one / 5) - 4 * atan_fixed (one / 239))%Z.

Definition sqrt_pi_fixed : Z := Z.sqrt (pi_fixed * one).

(** sum of (-x^2)^i / (i! (2 i + 1)) over the n indices from [i] on, with
    [term] = (-x^2)^i / i! *)
Fixpoint erf_series (n : nat) (i term x2 acc : Z) : Z :=
  match n with
  | O => acc
  | S n' =>
      erf_series n' (i + 1) (- (fmul term x2) / (i + 1)) x2
                 (acc + term / (2 * i + 1))
  end.

(** erf y = y (2 / sqrt pi) sum (-y^2)^i / (i! (2 i + 1)); from 6 on the
    result rounds to 1 *)
Definition erf (y : float) : float :=
  match Prim2SF y with
  | S754_nan => nan
  | S754_zero _ => y
  | S754_infinity s => if s then (-1)%float else 1%float
  | S754_finite s m e =>
      let X := Z.shiftl (Zpos m) (e + p) in
      if (6 * one <=? X)%Z then (if s then (-1)%float else 1%float)
      else
        let G := erf_series 280 0 one (fmul X X) 0 in
        round (cond_opp s (Zpos m * (2 * G * one / sqrt_pi_fixed))) (e - p)
  end.
End RefLibmSpecial.

Definition reference_special : CMathSpecial float := {|
  erf := RefLibmSpecial.erf;
  tanh := RefLibmSpecial.tanh
|}.

(** The sign bit of a double is clear, or the double is NaN: what a
    quotient with a positive numerator needs of its denominator to stay
    out of the negative doubles (a denominator -0 gives -infinity). *)
Definition sign_clear (X : spec_float) : Prop :=
  match X with
  | S754_zero s | S754_infinity s | S754_finite s _ _ => s = false
  | S754_nan => True
  end.

(** * Properties *)

(** ** The instantiation at double *)

(** [lit] gives the doubles that Rocq reads from the same decimals. *)
Example double_literals :
  lit 0 = 0%float /\ lit 1 = 1%float /\ lit 0.01 = 0.01%float /\
  lit 1.0507 = 1.0507%float /\ lit 1.67326 = 1.67326%float.
Proof. repeat split. Qed.

(** The reference <cmath> at the arguments used below, against the
    correctly rounded values. *)
Example RefLibm_values :
  RefLibm.exp 1 = 0x1.5bf0a8b145769p+1%float /\
  RefLibm.exp (-3) = 0x1.97db0ccceb0afp-5%float /\
  RefLibm.exp (-1000) = 0%float /\
  RefLibm.log 1 = 0%float /\
  RefLibm.log 2 = 0x1.62e42fefa39efp-1%float /\
  RefLibm.pow 3 2 = 9%float /\
  RefLibm.pow 1e-200 2 = 0%float.
Proof. repeat split; vm_compute; reflexivity. Qed.

(** ** Comparisons of a double with zero *)
Section CompareZero.
Local Open Scope float_scope.

Lemma Prim2SF_zero : Prim2SF 0 = S754_zero false.
Proof. reflexivity. Qed.

Lemma leb_zero_not_gt (x : float) : (x <=? 0) = true -> (0 <? x) = false.
Proof.
  rewrite leb_spec, ltb_spec, Prim2SF_zero.
  destruct (Prim2SF x) as [s | s | | s m e]; try destruct s; cbn; congruence.
Qed.

Lemma geb_zero_not_lt (x : float) : (0 <=? x) = true -> (x <? 0) = false.
Proof.
  rewrite leb_spec, ltb_spec, Prim2SF_zero.
  destruct (Prim2SF x) as [s | s | | s m e]; try destruct s; cbn; congruence.
Qed.
End CompareZero.

(** ** Literals over the reals *)
Section RealLiterals.
Local Open Scope R_scope.

Lemma Q2R_lit0 : Q2R 0 = 0.
Proof. unfold Q2R; simpl; lra. Qed.

Lemma Q2R_lit1 : Q2R 1 = 1.
Proof. unfold Q2R; simpl; lra. Qed.

Lemma real_ltb_true (x y : R) : x < y -> ltb x y = true.
Proof. intro Hlt; simpl; destruct (Rlt_dec x y); [reflexivity | contradiction]. Qed.

Lemma real_ltb_false (x y : R) : y <= x -> ltb x y = false.
Proof. intro Hle; simpl; destruct (Rlt_dec x y); [lra | reflexivity]. Qed.
End RealLiterals.

(** Reading a template at one instantiation: the operations of the
    interface become those of the scalar type, the literals its numbers. *)
Ltac at_double :=
  cbn [add sub mul div opp ltb sqrt double_scalar];
  change (lit 0) with 0%float;
  change (lit 1) with 1%float;
  change (lit 1.0507) with 1.0507%float;
  change (lit 1.67326) with 1.67326%float.

Ltac at_real :=
  cbn [lit add sub mul div opp sqrt real_scalar exp log pow real_cmath];
  rewrite ?Q2R_lit0, ?Q2R_lit1.

(** C3: RectifiedLinearUnitFn returns 0 when x <= 0 and x when x > 0, on
    doubles (where the 0 returned is +0) and on reals; ReLU(-1) = 0,
    ReLU(0) = 0 and ReLU(3.5) = 3.5. *)
Theorem RectifiedLinearUnitFn_cases :
  (forall x : float,
     ((x <=? 0)%float = true -> RectifiedLinearUnitFn x = 0%float) /\
     ((0 <? x)%float = true -> RectifiedLinearUnitFn x = x)) /\
  (RectifiedLinearUnitFn (-1)%float = 0%float /\
   RectifiedLinearUnitFn 0%float = 0%float /\
   RectifiedLinearUnitFn 3.5%float = 3.5%float) /\
  (forall x : R,
     ((x <= 0)%R -> RectifiedLinearUnitFn x = 0%R) /\
     ((x > 0)%R -> RectifiedLinearUnitFn x = x)).
Proof.
  split; [| split].
  - intro x; unfold RectifiedLinearUnitFn; at_double.
    split; intro Hx.
    + now rewrite (leb_zero_not_gt Hx).
    + now rewrite Hx.
  - repeat split; vm_compute; reflexivity.
  - intro x; unfold RectifiedLinearUnitFn; at_real.
    split; intro Hx.
    + now rewrite real_ltb_false.
    + now rewrite real_ltb_true.
Qed.

Lemma RectifiedLinearUnitFn_cases_witness :
  (-1 <=? 0)%float = true /\ RectifiedLinearUnitFn (-1)%float = 0%float.
Proof.
  split; [reflexivity |].
  apply (proj1 (proj1 RectifiedLinearUnitFn_cases (-1)%float)); reflexivity.
Defined.

(** C4: BinaryStepFn returns 0 when x < 0 and 1 when x >= 0, zero included,
    on doubles and on reals; BinaryStep(-0.001) = 0, BinaryStep(0) = 1 and
    BinaryStep(5) = 1. *)
Theorem BinaryStepFn_cases :
  (forall x : float,
     ((x <? 0)%float = true -> BinaryStepFn x = 0%Z) /\
     ((0 <=? x)%float = true -> BinaryStepFn x = 1%Z)) /\
  (BinaryStepFn (-0.001)%float = 0%Z /\
   BinaryStepFn 0%float = 1%Z /\
   BinaryStepFn 5%float = 1%Z) /\
  (forall x : R,
     ((x < 0)%R -> BinaryStepFn x = 0%Z) /\
     ((x >= 0)%R -> BinaryStepFn x = 1%Z)).
Proof.
  split; [| split].
  - intro x; unfold BinaryStepFn; at_double.
    split; intro Hx.
    + now rewrite Hx.
    + now rewrite (geb_zero_not_lt Hx).
  - repeat split; vm_compute; reflexivity.
  - intro x; unfold BinaryStepFn; at_real.
    split; intro Hx.
    + now rewrite real_ltb_true.
    + rewrite real_ltb_false; [reflexivity | lra].
Qed.

Lemma BinaryStepFn_cases_witness :
  (0 <=? 5)%float = true /\ BinaryStepFn 5%float = 1%Z.
Proof.
  split; [reflexivity |].
  apply (proj2 (proj1 BinaryStepFn_cases 5%float)); reflexivity.
Defined.

(** ** Sign symmetry of IEEE 754 arithmetic

    Rounding to nearest even treats a value and its opposite alike, so
    subtraction is antisymmetric and division commutes with negation, up
    to the sign of an exact zero difference. *)
Section SignSymmetry.

Lemma binary_round_aux_opp (s : bool) (m e : Z) (l : location) :
  binary_round_aux prec emax (negb s) m e l =
  SFopp (binary_round_aux prec emax s m e l).
Proof.
  unfold binary_round_aux.
  destruct (shr_fexp prec emax m e l) as [mrs' e'].
  destruct (shr_fexp prec emax _ e' loc_Exact) as [mrs'' e''].
  destruct (shr_m mrs''); try reflexivity.
  destruct (e'' <=? emax - prec)%Z; reflexivity.
Qed.

Lemma binary_round_opp (s : bool) (m : positive) (e : Z) :
  binary_round prec emax (negb s) m e = SFopp (binary_round prec emax s m e).
Proof.
  unfold binary_round.
  destruct (shl_align m e _) as [mz ez].
  apply binary_round_aux_opp.
Qed.

Lemma binary_normalize_opp (m e : Z) :
  m <> 0%Z ->
  binary_normalize prec emax (- m) e false =
  SFopp (binary_normalize prec emax m e false).
Proof.
  destruct m as [| q | q]; intro Hm; [congruence | |]; simpl.
  - apply (binary_round_opp false).
  - apply (binary_round_opp true).
Qed.

(** y - x is the opposite of x - y, unless both are the exact zero +0 *)
Lemma SFsub_swap (x y : spec_float) :
  SF64sub y x = SFopp (SF64sub x y) \/
  (SF64sub y x = S754_zero false /\ SF64sub x y = S754_zero false).
Proof.
  destruct x as [sx | sx | | sx mx ex], y as [sy | sy | | sy my ey];
    try (destruct sx, sy; simpl; auto; fail);
    try (destruct sx; simpl; auto; fail);
    try (destruct sy; simpl; auto; fail);
    try (simpl; rewrite ?negb_involutive; auto; fail).
  unfold SF64sub, SFsub.
  rewrite (Z.min_comm ey ex).
  set (ez := Z.min ex ey).
  set (A := cond_Zopp sx (Zpos (fst (shl_align mx ex ez)))).
  set (B := cond_Zopp sy (Zpos (fst (shl_align my ey ez)))).
  destruct (Z.eq_dec (A - B) 0) as [Hz | Hnz].
  - right. replace (B - A)%Z with 0%Z by lia. rewrite Hz. auto.
  - left. replace (B - A)%Z with (- (A - B))%Z by lia.
    now apply binary_normalize_opp.
Qed.

Lemma SFadd_comm (x y : spec_float) : SF64add x y = SF64add y x.
Proof.
  destruct x as [sx | sx | | sx mx ex], y as [sy | sy | | sy my ey];
    try (destruct sx, sy; reflexivity);
    try (destruct sx; reflexivity);
    try (destruct sy; reflexivity);
    try reflexivity.
  unfold SF64add, SFadd.
  now rewrite (Z.min_comm ey ex), Z.add_comm.
Qed.

Lemma SFdiv_opp_l (n d : spec_float) :
  SF64div (SFopp n) d = SFopp (SF64div n d).
Proof.
  destruct n as [sn | sn | | sn mn en], d as [sd | sd | | sd md ed];
    try (destruct sn, sd; reflexivity);
    try (destruct sn; reflexivity);
    try reflexivity.
  unfold SF64div, SFdiv, SFopp.
  destruct (SFdiv_core_binary prec emax (Zpos mn) en (Zpos md) ed)
    as [[mz ez] lz].
  replace (xorb (negb sn) sd) with (negb (xorb sn sd))
    by (destruct sn, sd; reflexivity).
  apply binary_round_aux_opp.
Qed.

(** a quotient whose numerator is swapped as in [SFsub_swap] *)
Lemma SFdiv_swapped (n n' d : spec_float) :
  n' = SFopp n \/ (n' = S754_zero false /\ n = S754_zero false) ->
  SF64div n' d = SFopp (SF64div n d) \/
  SFeqb (SF64div n' d) (SFopp (SF64div n d)) = true.
Proof.
  intros [-> | [-> ->]].
  - left. apply SFdiv_opp_l.
  - destruct d as [sd | sd | | sd md ed]; simpl; auto.
Qed.

Lemma same_value_of_spec (a b : float) :
  Prim2SF a = Prim2SF b \/ SFeqb (Prim2SF a) (Prim2SF b) = true ->
  same_value a b.
Proof.
  intros [E | E]; [left; now apply Prim2SF_inj | right].
  now rewrite FloatAxioms.eqb_spec.
Qed.

Lemma float_opp_involutive (x : float) : (- - x)%float = x.
Proof.
  apply Prim2SF_inj. rewrite !opp_spec.
  destruct (Prim2SF x); simpl; now rewrite ?negb_involutive.
Qed.

(** [==] holds between a double that is not NaN and itself; so it does
    for its opposite *)
Lemma float_eqb_opp_refl (y : float) :
  is_nan y = false -> (- y =? - y)%float = true.
Proof.
  unfold is_nan. rewrite !FloatAxioms.eqb_spec, opp_spec.
  destruct (Prim2SF y) as [s | s | | s m e]; try destruct s; try easy;
    unfold SFeqb; simpl; rewrite Z.compare_refl, Pos.compare_cont_refl;
    easy.
Qed.

(** the quotient of HyperbolicTangentFn with the two exponentials swapped *)
Lemma tanh_quotient_swap (a b : float) :
  same_value ((b - a) / (b + a))%float (- ((a - b) / (a + b)))%float.
Proof.
  apply same_value_of_spec.
  rewrite opp_spec, !div_spec, !sub_spec, !add_spec.
  rewrite (SFadd_comm (Prim2SF b) (Prim2SF a)).
  apply SFdiv_swapped, SFsub_swap.
Qed.

End SignSymmetry.

(** C6: ScaledExponentialLinearUnitFn(0) = 0; for x >= 0 the result is the
    product 1.0507 * x, for x < 0 it is 1.0507 * 1.67326 * (e^x - 1), with
    these two constants; on doubles, for every <cmath>, with the products
    those of double arithmetic, and on reals. *)
Theorem ScaledExponentialLinearUnitFn_cases (M : CMath float) :
  ScaledExponentialLinearUnitFn 0%float = 0%float /\
  (forall x : float,
     ((0 <=? x)%float = true ->
      ScaledExponentialLinearUnitFn x = (1.0507 * x)%float) /\
     ((x <? 0)%float = true ->
      ScaledExponentialLinearUnitFn x =
      (1.0507 * 1.67326 * (exp x - 1))%float)) /\
  ScaledExponentialLinearUnitFn 0%R = 0%R /\
  (forall x : R,
     ((x >= 0)%R -> ScaledExponentialLinearUnitFn x = (1.0507 * x)%R) /\
     ((x < 0)%R ->
      ScaledExponentialLinearUnitFn x =
      (1.0507 * 1.67326 * (Rtrigo_def.exp x - 1))%R)).
Proof.
  assert (HR : forall x : R,
     ((x >= 0)%R -> ScaledExponentialLinearUnitFn x = (1.0507 * x)%R) /\
     ((x < 0)%R ->
      ScaledExponentialLinearUnitFn x =
      (1.0507 * 1.67326 * (Rtrigo_def.exp x - 1))%R)).
  { intro x; unfold ScaledExponentialLinearUnitFn; at_real.
    split; intro Hx.
    - rewrite real_ltb_false by lra. unfold Q2R; simpl; lra.
    - rewrite real_ltb_true by lra. unfold Q2R; simpl; lra. }
  split; [| split; [| split]].
  - vm_compute; reflexivity.
  - intro x; unfold ScaledExponentialLinearUnitFn; at_double.
    split; intro Hx.
    + now rewrite (geb_zero_not_lt Hx).
    + now rewrite Hx.
  - rewrite (proj1 (HR 0%R)); lra.
  - exact HR.
Qed.

Lemma ScaledExponentialLinearUnitFn_cases_witness :
  (0 <=? 2)%float = true /\
  ScaledExponentialLinearUnitFn (cmath := reference_cmath) 2%float
  = (1.0507 * 2)%float.
Proof.
  split; [reflexivity |].
  apply (proj1 (proj1 (proj2
    (ScaledExponentialLinearUnitFn_cases reference_cmath)) 2%float)).
  reflexivity.
Defined.

(** C7, as stated, fails on doubles.  At the finite x = 710 exp(x)
    overflows, HyperbolicTangentFn(710) and HyperbolicTangentFn(-710) are
    infinity / infinity = NaN, and HyperbolicTangentFn(-x) ==
    -HyperbolicTangentFn(x) is false.  At x = 0 the two sides compare equal
    but are not the same double: HyperbolicTangentFn(-0) is +0 and
    -HyperbolicTangentFn(0) is -0. *)
Lemma HyperbolicTangentFn_not_odd_on_double :
  (is_finite 710%float = true /\
   HyperbolicTangentFn (cmath := reference_cmath) 710%float = nan /\
   HyperbolicTangentFn (cmath := reference_cmath) (- 710)%float = nan /\
   (HyperbolicTangentFn (cmath := reference_cmath) (- 710)
    =? - HyperbolicTangentFn (cmath := reference_cmath) 710)%float = false) /\
  (HyperbolicTangentFn (cmath := reference_cmath) (- 0)%float = 0%float /\
   (- HyperbolicTangentFn (cmath := reference_cmath) 0)%float = (-0)%float /\
   HyperbolicTangentFn (cmath := reference_cmath) (- 0)%float
   <> (- HyperbolicTangentFn (cmath := reference_cmath) 0)%float).
Proof.
  assert (Hz : HyperbolicTangentFn (cmath := reference_cmath) (- 0)%float
               = 0%float) by (vm_compute; reflexivity).
  assert (Hm : (- HyperbolicTangentFn (cmath := reference_cmath) 0)%float
               = (-0)%float) by (vm_compute; reflexivity).
  split.
  - repeat split; vm_compute; reflexivity.
  - split; [exact Hz | split; [exact Hm |]].
    rewrite Hz, Hm. intro E.
    apply (f_equal (fun y => (1 / y)%float)) in E.
    vm_compute in E. apply (f_equal Prim2SF) in E.
    vm_compute in E. discriminate.
Qed.

(** C7, amended: HyperbolicTangentFn(0) = 0, and for every x the results
    HyperbolicTangentFn(-x) and -HyperbolicTangentFn(x) are the same value:
    identical (NaN on both sides, where exp overflows, included) or zeros
    of opposite sign; they compare equal with == whenever
    HyperbolicTangentFn(x) is not NaN.  On doubles this holds for every
    exp, the value at 0 being +0 once exp(+0) = exp(-0) = 1, as Annex F of
    the C standard requires.  In exact real arithmetic the two sides are
    equal for every x. *)
Theorem HyperbolicTangentFn_odd (M : CMath float) :
  (exp 0%float = 1%float -> exp (-0)%float = 1%float ->
   HyperbolicTangentFn 0%float = 0%float) /\
  (forall x : float,
     same_value (HyperbolicTangentFn (- x)%float)
                (- HyperbolicTangentFn x)%float /\
     (is_nan (HyperbolicTangentFn x) = false ->
      (HyperbolicTangentFn (- x) =? - HyperbolicTangentFn x)%float = true)) /\
  HyperbolicTangentFn 0%R = 0%R /\
  (forall x : R, HyperbolicTangentFn (- x)%R = (- HyperbolicTangentFn x)%R).
Proof.
  split; [| split; [| split]].
  - intros H0 Hm0. unfold HyperbolicTangentFn; at_double.
    rewrite H0, Hm0. reflexivity.
  - intro x.
    assert (Hsame : same_value (HyperbolicTangentFn (- x)%float)
                               (- HyperbolicTangentFn x)%float).
    { unfold HyperbolicTangentFn; at_double.
      rewrite float_opp_involutive.
      apply tanh_quotient_swap. }
    split; [exact Hsame |].
    intro Hnan. destruct Hsame as [-> | Heq]; [| exact Heq].
    now apply float_eqb_opp_refl.
  - unfold HyperbolicTangentFn; at_real.
    rewrite Ropp_0, exp_0. lra.
  - intro x. unfold HyperbolicTangentFn; at_real.
    rewrite Ropp_involutive.
    pose proof (exp_pos x). pose proof (exp_pos (- x)).
    field. lra.
Qed.

Lemma HyperbolicTangentFn_odd_witness :
  (RefLibm.exp 0%float = 1%float /\ RefLibm.exp (-0)%float = 1%float /\
   HyperbolicTangentFn (cmath := reference_cmath) 0%float = 0%float) /\
  (is_nan (HyperbolicTangentFn (cmath := reference_cmath) 0.5%float) = false /\
   (HyperbolicTangentFn (cmath := reference_cmath) (- 0.5)
    =? - HyperbolicTangentFn (cmath := reference_cmath) 0.5)%float = true).
Proof.
  split.
  - split; [reflexivity | split; [reflexivity |]].
    apply (proj1 (HyperbolicTangentFn_odd reference_cmath)); reflexivity.
  - split; [reflexivity |].
    apply (proj2 (proj1 (proj2 (HyperbolicTangentFn_odd reference_cmath))
                        0.5%float)).
    reflexivity.
Defined.

(** ** SoftplusFn and RectifiedLinearUnitFn *)
Section SoftplusBound.

(** On doubles the sum 1 + e^x is rounded: once exp underflows to 0 the
    logarithm is taken of 1. *)
Lemma SoftplusFn_underflow (M : CMath float) (x : float) :
  exp x = 0%float -> log 1%float = 0%float -> SoftplusFn x = 0%float.
Proof.
  intros He Hl. unfold SoftplusFn; at_double.
  rewrite He. change (1 + 0)%float with 1%float. exact Hl.
Qed.

Lemma SoftplusFn_real_pos (x : R) : (SoftplusFn x > 0)%R.
Proof.
  unfold SoftplusFn; at_real.
  rewrite <- ln_1.
  pose proof (exp_pos x).
  apply Rlt_gt, ln_increasing; lra.
Qed.

Lemma SoftplusFn_real_above_id (x : R) : (SoftplusFn x > x)%R.
Proof.
  unfold SoftplusFn; at_real.
  pose proof (exp_pos x).
  rewrite <- (ln_exp x) at 2.
  apply Rlt_gt, ln_increasing; lra.
Qed.

End SoftplusBound.

(** C5, as stated, fails on doubles: at x = -1000 exp underflows to 0, so
    SoftplusFn(-1000) = log(1) = 0 = RectifiedLinearUnitFn(-1000). *)
Lemma SoftplusFn_not_strict_on_double :
  SoftplusFn (cmath := reference_cmath) (-1000)%float = 0%float /\
  RectifiedLinearUnitFn (-1000)%float = 0%float /\
  ~ (forall x : float, is_finite x = true ->
       (RectifiedLinearUnitFn x
        <? SoftplusFn (cmath := reference_cmath) x)%float = true).
Proof.
  assert (Hs : SoftplusFn (cmath := reference_cmath) (-1000)%float = 0%float)
    by (apply SoftplusFn_underflow; reflexivity).
  split; [exact Hs | split; [reflexivity |]].
  intro Hall. specialize (Hall (-1000)%float eq_refl).
  rewrite Hs in Hall. vm_compute in Hall. discriminate.
Qed.

(** C5, amended: in exact real arithmetic SoftplusFn(x) = ln(1 + e^x) is
    strictly greater than RectifiedLinearUnitFn(x) = max(0, x), for every
    x.  On doubles, for every <cmath> with log(1) = 0, the two are equal
    wherever x <= 0 and exp(x) underflows to 0. *)
Theorem SoftplusFn_above_RectifiedLinearUnitFn :
  (forall x : R, (SoftplusFn x > RectifiedLinearUnitFn x)%R) /\
  (forall (M : CMath float) (x : float),
     (x <=? 0)%float = true -> exp x = 0%float -> log 1%float = 0%float ->
     SoftplusFn x = RectifiedLinearUnitFn x).
Proof.
  split.
  - intro x. unfold RectifiedLinearUnitFn.
    destruct (ltb (lit 0) x).
    + apply SoftplusFn_real_above_id.
    + at_real. apply SoftplusFn_real_pos.
  - intros M x Hx He Hl.
    rewrite (SoftplusFn_underflow M x He Hl).
    unfold RectifiedLinearUnitFn; at_double.
    now rewrite (leb_zero_not_gt Hx).
Qed.

Lemma SoftplusFn_above_RectifiedLinearUnitFn_witness :
  (-1000 <=? 0)%float = true /\
  RefLibm.exp (-1000)%float = 0%float /\
  RefLibm.log 1%float = 0%float /\
  SoftplusFn (cmath := reference_cmath) (-1000)%float
  = RectifiedLinearUnitFn (-1000)%float.
Proof.
  repeat (split; [reflexivity |]).
  apply (proj2 SoftplusFn_above_RectifiedLinearUnitFn reference_cmath);
    reflexivity.
Defined.

(** ** SigmoidLinearUnitFn and LogisticFn *)

(** With exp(-3) rounded to nearest, 0x1.97db0ccceb0afp-5, the quotient
    3 / d and the product 3 * (1 / d) are neighbouring doubles. *)
Lemma SigmoidLinearUnitFn_at_3 (M : CMath float) :
  exp (-3)%float = 0x1.97db0ccceb0afp-5%float ->
  SigmoidLinearUnitFn 3%float = 0x1.6dc9d8d293c0dp+1%float /\
  (3 * LogisticFn 3)%float = 0x1.6dc9d8d293c0ep+1%float.
Proof.
  intro He. unfold SigmoidLinearUnitFn, LogisticFn; at_double.
  change (PrimFloat.opp 3) with (-3)%float.
  rewrite He. split; vm_compute; reflexivity.
Qed.

(** C9, as stated, fails on doubles: x / d and x * (1 / d) round
    differently; at x = 3 they differ in the last bit. *)
Lemma SigmoidLinearUnitFn_not_product_on_double :
  SigmoidLinearUnitFn (cmath := reference_cmath) 3%float
  = 0x1.6dc9d8d293c0dp+1%float /\
  (3 * LogisticFn (cmath := reference_cmath) 3)%float
  = 0x1.6dc9d8d293c0ep+1%float /\
  (SigmoidLinearUnitFn (cmath := reference_cmath) 3
   =? 3 * LogisticFn (cmath := reference_cmath) 3)%float = false.
Proof.
  destruct (@SigmoidLinearUnitFn_at_3 reference_cmath eq_refl) as [Hs Hp].
  split; [exact Hs | split; [exact Hp |]].
  rewrite Hs, Hp. reflexivity.
Qed.

(** C9, amended: SigmoidLinearUnitFn(x) is x divided by the denominator
    1 + e^(-x) of LogisticFn(x), for every scalar type; in exact real
    arithmetic that is x * LogisticFn(x). *)
Theorem SigmoidLinearUnitFn_LogisticFn :
  (forall (M : CMath float) (x : float),
     LogisticFn x = (1 / (1 + exp (- x)))%float /\
     SigmoidLinearUnitFn x = (x / (1 + exp (- x)))%float) /\
  (forall x : R, SigmoidLinearUnitFn x = (x * LogisticFn x)%R).
Proof.
  split.
  - intros M x. split; reflexivity.
  - intro x. unfold SigmoidLinearUnitFn, LogisticFn; at_real.
    unfold Rdiv. ring.
Qed.

(** ** MultiquadraticsFn *)
Section MultiquadraticsBound.

Lemma binary_round_aux_not_neg (m e : Z) (l : location) :
  SFltb (binary_round_aux prec emax false m e l) (S754_zero false) = false.
Proof.
  unfold binary_round_aux.
  destruct (shr_fexp prec emax m e l) as [mrs' e'].
  destruct (shr_fexp prec emax _ e' loc_Exact) as [mrs'' e''].
  destruct (shr_m mrs''); try reflexivity.
  destruct (e'' <=? emax - prec)%Z; reflexivity.
Qed.

(** a square root is never below zero *)
Lemma SFsqrt_not_neg (y : spec_float) :
  SFltb (SF64sqrt y) (S754_zero false) = false.
Proof.
  destruct y as [s | s | | s m e]; try destruct s; try reflexivity.
  unfold SF64sqrt, SFsqrt.
  destruct (SFsqrt_core_binary prec emax (Zpos m) e) as [[mz ez] lz].
  apply binary_round_aux_not_neg.
Qed.

Lemma MultiquadraticsFn_real (x c a : R) :
  MultiquadraticsFn x c a = R_sqrt.sqrt (Rsqr (x - c) + Rsqr a).
Proof.
  unfold MultiquadraticsFn, Rsqr; at_real.
  f_equal. simpl. ring.
Qed.

(** Once the square of a underflows to 0, nothing of a is left in the
    result. *)
Lemma MultiquadraticsFn_underflow (M : CMath float) (a : float) :
  pow 0%float 2 = 0%float -> pow a 2 = 0%float ->
  MultiquadraticsFn 0%float 0%float a = 0%float.
Proof.
  intros H0 Ha. unfold MultiquadraticsFn; at_double.
  change (0 - 0)%float with 0%float.
  rewrite H0, Ha. reflexivity.
Qed.

End MultiquadraticsBound.

(** C10, as stated, fails on doubles: the square of a = 1e-200 underflows
    to 0, so MultiquadraticsFn(0, 0, 1e-200) = 0 < |a|. *)
Lemma MultiquadraticsFn_below_abs_on_double :
  MultiquadraticsFn (cmath := reference_cmath) 0%float 0%float 1e-200%float
  = 0%float /\
  (abs 1e-200
   <=? MultiquadraticsFn (cmath := reference_cmath) 0 0 1e-200)%float
  = false.
Proof.
  assert (Hm : MultiquadraticsFn (cmath := reference_cmath)
                 0%float 0%float 1e-200%float = 0%float)
    by (apply MultiquadraticsFn_underflow; reflexivity).
  split; [exact Hm |].
  rewrite Hm. reflexivity.
Qed.

(** C10, amended: in exact real arithmetic MultiquadraticsFn(x, c, a) >=
    |a| >= 0 for all x, c, a; on doubles, for every <cmath>, the result is
    never below zero. *)
Theorem MultiquadraticsFn_bounds :
  (forall x c a : R,
     (MultiquadraticsFn x c a >= Rabs a)%R /\
     (MultiquadraticsFn x c a >= 0)%R) /\
  (forall (M : CMath float) (x c a : float),
     (MultiquadraticsFn x c a <? 0)%float = false).
Proof.
  split.
  - intros x c a.
    assert (Hge : (MultiquadraticsFn x c a >= Rabs a)%R).
    { rewrite MultiquadraticsFn_real, <- (sqrt_Rsqr_abs a).
      apply Rle_ge, sqrt_le_1.
      - apply Rle_0_sqr.
      - apply Rplus_le_le_0_compat; apply Rle_0_sqr.
      - pose proof (Rle_0_sqr (x - c)). lra. }
    split; [exact Hge |].
    pose proof (Rabs_pos a). lra.
  - intros M x c a. unfold MultiquadraticsFn; at_double.
    rewrite ltb_spec, sqrt_spec, Prim2SF_zero.
    apply SFsqrt_not_neg.
Qed.

(** ** MaxoutFn *)
Section MaxoutProperties.
Import Cpp.

(** the operands of [std::max_element] in the header are member functions
    that are not called *)
Lemma MaxoutFn_body_operands :
  type_of (MemberName Param m_begin) = Some TMemberFn /\
  type_of (MemberName Param m_end) = Some TMemberFn /\
  well_formed MaxoutFn_body = false.
Proof. repeat split. Qed.

(** with the two calls written out the body returns an iterator, which is
    still not a [T] *)
Example MaxoutFn_body_with_calls :
  type_of (MaxElement (MemberCall Param m_begin) (MemberCall Param m_end))
  = Some TIterator /\
  well_formed (Return (MaxElement (MemberCall Param m_begin)
                                  (MemberCall Param m_end))) = false.
Proof. split; reflexivity. Qed.

Lemma MaxoutFn_IllFormed (T : Type) (scalar : Scalar T) (x : list T) :
  MaxoutFn x = IllFormed.
Proof. reflexivity. Qed.

(** a body that checks for the empty sequence and reads through the
    iterator does what the specification describes *)
Example MaxoutFn_described_sample :
  MaxoutFn_described [3; 1; 4; 1; 5; 9; 2; 6]%float = Returns 9%float /\
  MaxoutFn_described (@nil float) = Throws InvalidArgument.
Proof. split; reflexivity. Qed.

Example max_element_first_greatest :
  max_element [2; 7; 7; 1]%float 0 4 = 1%nat /\
  max_element (@nil float) 0 0 = 0%nat.
Proof. split; reflexivity. Qed.

End MaxoutProperties.

(** C1: MaxoutFn on [3, 1, 4, 1, 5, 9, 2, 6], and on any other sequence
    of any scalar type: the body of the header is ill formed, so no call
    returns the maximum; 9 is what the described body returns. *)
Theorem MaxoutFn_returns_no_maximum :
  MaxoutFn [3; 1; 4; 1; 5; 9; 2; 6]%float = Cpp.IllFormed /\
  MaxoutFn [3; 1; 4; 1; 5; 9; 2; 6]%float <> Cpp.Returns 9%float /\
  MaxoutFn_described [3; 1; 4; 1; 5; 9; 2; 6]%float
  = Cpp.Returns 9%float /\
  (forall (T : Type) (scalar : Scalar T) (x : list T) (v : T),
     MaxoutFn x <> Cpp.Returns v).
Proof.
  split; [reflexivity | split; [discriminate | split; [reflexivity |]]].
  intros T scalar x v. rewrite MaxoutFn_IllFormed. discriminate.
Qed.

(** C2, as stated, fails: on the empty sequence MaxoutFn signals no
    invalid-argument failure. *)
Lemma MaxoutFn_empty_no_failure :
  MaxoutFn (@nil float) <> Cpp.Throws Cpp.InvalidArgument.
Proof. rewrite MaxoutFn_IllFormed. discriminate. Qed.

(** C2, amended: MaxoutFn signals no failure of any kind, on the empty
    sequence or on any other: no call takes place, and the statement of
    its body holds no check and no throw to run. *)
Theorem MaxoutFn_never_throws :
  forall (T : Type) (scalar : Scalar T) (x : list T)
         (ex : Cpp.exception),
    MaxoutFn x <> Cpp.Throws ex /\
    Cpp.exec x MaxoutFn_body <> Cpp.Throws ex.
Proof.
  intros T scalar x ex. split.
  - rewrite MaxoutFn_IllFormed. discriminate.
  - simpl. discriminate.
Qed.

(** * Further properties of the header *)

(** ** Doubles: NaN, infinities and the order *)
Section DoubleFacts.
Local Open Scope float_scope.

Lemma Prim2SF_one : Prim2SF 1 = S754_finite false 4503599627370496 (-52).
Proof. reflexivity. Qed.

Lemma Prim2SF_infinity : Prim2SF infinity = S754_infinity false.
Proof. reflexivity. Qed.

Lemma Prim2SF_nan : Prim2SF nan = S754_nan.
Proof. reflexivity. Qed.

Lemma SFeqb_refl_not_nan (X : spec_float) :
  X <> S754_nan -> SFeqb X X = true.
Proof.
  destruct X as [s | s | | s m e]; try destruct s; try easy;
    intros _; unfold SFeqb; simpl;
    now rewrite Z.compare_refl, Pos.compare_cont_refl.
Qed.

(** there is one NaN *)
Lemma is_nan_true (x : float) : is_nan x = true -> x = nan.
Proof.
  unfold is_nan. rewrite FloatAxioms.eqb_spec. intro H.
  apply Prim2SF_inj. rewrite Prim2SF_nan.
  destruct (Prim2SF x) as [s | s | | s m e] eqn:E; try reflexivity;
    rewrite SFeqb_refl_not_nan in H; easy.
Qed.

Lemma is_nan_false (x : float) : is_nan x = false -> Prim2SF x <> S754_nan.
Proof.
  unfold is_nan. rewrite FloatAxioms.eqb_spec. intros H E.
  rewrite E in H. discriminate.
Qed.

Lemma not_nan_is_nan (x : float) : Prim2SF x <> S754_nan -> is_nan x = false.
Proof.
  intro H. unfold is_nan. rewrite FloatAxioms.eqb_spec.
  now rewrite SFeqb_refl_not_nan.
Qed.

(** a double above zero is a number and is not below zero *)
Lemma gt_zero_number (x : float) :
  (0 <? x) = true -> is_nan x = false /\ (x <? 0) = false.
Proof.
  intro H. split.
  - apply not_nan_is_nan. intro E.
    rewrite ltb_spec, E in H. discriminate.
  - revert H. rewrite !ltb_spec, Prim2SF_zero.
    destruct (Prim2SF x) as [s | s | | s m e]; try destruct s; easy.
Qed.

(** what is neither above nor below zero is a zero or NaN *)
Lemma neither_side_of_zero (x : float) :
  (0 <? x) = false -> (x <? 0) = false ->
  (x =? 0) = true \/ is_nan x = true.
Proof.
  unfold is_nan. rewrite !ltb_spec, !FloatAxioms.eqb_spec, Prim2SF_zero.
  destruct (Prim2SF x) as [s | s | | s m e]; try destruct s; simpl; auto;
    try discriminate.
Qed.

End DoubleFacts.

(** X1: RectifiedLinearUnitFn on doubles never returns NaN and never a
    negative value; NaN is not propagated but mapped to +0. *)
Theorem RectifiedLinearUnitFn_double_range :
  forall x : float,
    is_nan (RectifiedLinearUnitFn x) = false /\
    (RectifiedLinearUnitFn x <? 0)%float = false /\
    (is_nan x = true -> RectifiedLinearUnitFn x = 0%float).
Proof.
  intro x. unfold RectifiedLinearUnitFn; at_double.
  destruct (0 <? x)%float eqn:Hgt.
  - destruct (gt_zero_number Hgt) as [Hn Hlt].
    repeat split; try assumption.
    intro Hnan. congruence.
  - repeat split.
Qed.

Lemma RectifiedLinearUnitFn_double_range_witness :
  is_nan nan = true /\ RectifiedLinearUnitFn nan = 0%float.
Proof.
  split; [vm_compute; reflexivity |].
  apply (proj2 (proj2 (RectifiedLinearUnitFn_double_range nan))).
  vm_compute; reflexivity.
Defined.

(** X2: RectifiedLinearUnitFn is idempotent, on doubles and on reals. *)
Theorem RectifiedLinearUnitFn_idempotent :
  (forall x : float,
     RectifiedLinearUnitFn (RectifiedLinearUnitFn x)
     = RectifiedLinearUnitFn x) /\
  (forall x : R,
     RectifiedLinearUnitFn (RectifiedLinearUnitFn x)
     = RectifiedLinearUnitFn x).
Proof.
  split; intro x; unfold RectifiedLinearUnitFn.
  - at_double. destruct (0 <? x)%float eqn:Hgt.
    + now rewrite Hgt.
    + reflexivity.
  - at_real. destruct (Rlt_le_dec 0 x) as [Hgt | Hle].
    + rewrite (real_ltb_true Hgt). cbv iota. now rewrite (real_ltb_true Hgt).
    + rewrite (real_ltb_false Hle). cbv iota.
      now rewrite real_ltb_false by lra.
Qed.

(** X3: HeavisideFn(a, x, b) and BinaryStepFn of the same linear form
    t = a*x + b agree when t is above or below zero and differ when t is a
    zero or NaN, where HeavisideFn gives 0 and BinaryStepFn gives 1; on
    reals they differ exactly at t = 0. *)
Theorem HeavisideFn_vs_BinaryStepFn :
  (forall a x b : float,
     let t := LinearFn a x b in
     ((0 <? t)%float = true ->
      HeavisideFn a x b = 1%float /\ BinaryStepFn t = 1%Z) /\
     ((t <? 0)%float = true ->
      HeavisideFn a x b = 0%float /\ BinaryStepFn t = 0%Z) /\
     ((t =? 0)%float = true \/ is_nan t = true ->
      HeavisideFn a x b = 0%float /\ BinaryStepFn t = 1%Z)) /\
  (forall a x b : R,
     let t := LinearFn a x b in
     ((t > 0)%R -> HeavisideFn a x b = 1%R /\ BinaryStepFn t = 1%Z) /\
     ((t < 0)%R -> HeavisideFn a x b = 0%R /\ BinaryStepFn t = 0%Z) /\
     (t = 0%R -> HeavisideFn a x b = 0%R /\ BinaryStepFn t = 1%Z)).
Proof.
  split.
  - intros a x b t. unfold HeavisideFn, BinaryStepFn.
    fold (LinearFn a x b). fold t. at_double.
    split; [| split].
    + intro H. rewrite H, (proj2 (gt_zero_number H)). now split.
    + intro H. rewrite H.
      destruct (0 <? t)%float eqn:Hgt; [| now split].
      destruct (gt_zero_number Hgt) as [_ Hlt]. congruence.
    + intro H.
      assert (Hboth : (0 <? t)%float = false /\ (t <? 0)%float = false).
      { destruct H as [H | H].
        - revert H. rewrite !ltb_spec, FloatAxioms.eqb_spec, Prim2SF_zero.
          destruct (Prim2SF t) as [s | s | | s m e];
            try destruct s; simpl; auto; discriminate.
        - apply is_nan_true in H. rewrite H. now split. }
      destruct Hboth as [-> ->]. now split.
  - intros a x b t. unfold HeavisideFn, BinaryStepFn.
    fold (LinearFn a x b). fold t. at_real.
    split; [| split]; intro H.
    + rewrite real_ltb_true by lra. rewrite real_ltb_false by lra. now split.
    + rewrite real_ltb_false by lra. rewrite real_ltb_true by lra. now split.
    + rewrite !real_ltb_false by lra. now split.
Qed.

Lemma HeavisideFn_vs_BinaryStepFn_witness :
  (LinearFn 1 0 0 =? 0)%float = true /\
  HeavisideFn 1%float 0%float 0%float = 0%float /\
  BinaryStepFn (LinearFn 1%float 0%float 0%float) = 1%Z.
Proof.
  split; [vm_compute; reflexivity |].
  apply (proj2 (proj2 (proj1 HeavisideFn_vs_BinaryStepFn 1 0 0)%float)).
  left. vm_compute; reflexivity.
Defined.

(** ** Doubles: multiplication by one is exact *)
Section ExactProduct.

(** rounding a value that is already a double changes nothing; here for
    the mantissa of 1 times that of x, which is the mantissa of x followed
    by 52 zero bits *)
Lemma digits2_pos_shift52 (m : positive) :
  Zpos (digits2_pos (4503599627370496 * m))
  = (Zpos (digits2_pos m) + 52)%Z.
Proof. cbn [Pos.mul digits2_pos]. rewrite !Pos2Z.inj_succ. lia. Qed.

Lemma shr_52_exact (m : positive) :
  SpecFloat.iter_pos shr_1 52
    {| shr_m := Zpos (4503599627370496 * m);
       shr_r := false; shr_s := false |}
  = {| shr_m := Zpos m; shr_r := false; shr_s := false |}.
Proof. reflexivity. Qed.

Lemma SFmul_one_finite (s : bool) (m : positive) (e : Z) :
  SpecFloat.bounded prec emax m e = true ->
  SF64mul (S754_finite false 4503599627370496 (-52)) (S754_finite s m e)
  = S754_finite s m e.
Proof.
  unfold SpecFloat.bounded, canonical_mantissa. intro H.
  apply andb_prop in H. destruct H as [Hc He].
  apply Z.eqb_eq in Hc.
  unfold SF64mul, SFmul. cbn [xorb].
  unfold binary_round_aux.
  unfold shr_fexp at 1. cbn [Zdigits2 shr_record_of_loc].
  rewrite digits2_pos_shift52.
  replace (Z.pos (digits2_pos m) + 52 + (-52 + e))%Z
    with (Z.pos (digits2_pos m) + e)%Z by lia.
  rewrite Hc. replace (e - (-52 + e))%Z with 52%Z by lia.
  cbn [shr]. rewrite shr_52_exact.
  replace (-52 + e + 52)%Z with e by lia.
  cbn [shr_m loc_of_shr_record round_nearest_even].
  unfold shr_fexp. cbn [Zdigits2]. rewrite Hc, Z.sub_diag.
  cbn [shr shr_record_of_loc shr_m]. now rewrite He.
Qed.

Lemma float_mul_one_l (x : float) : (1 * x)%float = x.
Proof.
  apply Prim2SF_inj. rewrite mul_spec, Prim2SF_one.
  pose proof (Prim2SF_valid x) as Hv.
  destruct (Prim2SF x) as [s | s | | s m e]; try reflexivity.
  now apply SFmul_one_finite.
Qed.

Lemma SFmul_comm (x y : spec_float) : SF64mul x y = SF64mul y x.
Proof.
  destruct x as [sx | sx | | sx mx ex], y as [sy | sy | | sy my ey];
    try (simpl; now rewrite xorb_comm); try reflexivity.
  unfold SF64mul, SFmul.
  now rewrite xorb_comm, Pos.mul_comm, Z.add_comm.
Qed.

Lemma float_mul_comm (x y : float) : (x * y)%float = (y * x)%float.
Proof. apply Prim2SF_inj. rewrite !mul_spec. apply SFmul_comm. Qed.

(** a finite double is a zero or has a mantissa *)
Lemma is_finite_cases (x : float) :
  is_finite x = true ->
  (exists s, Prim2SF x = S754_zero s) \/
  (exists s m e, Prim2SF x = S754_finite s m e).
Proof.
  unfold is_finite, is_infinity. intro H.
  apply negb_true_iff, orb_false_iff in H. destruct H as [Hnan Hinf].
  apply is_nan_false in Hnan.
  revert Hinf. rewrite FloatAxioms.eqb_spec, abs_spec, Prim2SF_infinity.
  destruct (Prim2SF x) as [s | s | | s m e]; intro Hinf.
  - left. now exists s.
  - discriminate.
  - contradiction.
  - right. now exists s, m, e.
Qed.

End ExactProduct.

(** X4: the rectifiers with a slope, at T = double and in exact real
    arithmetic.  LeakyRectifiedLinearUnitFn is
    ParametricRectifiedLinearUnitFn with slope 0.01 (at T = double the
    product 0.01 * x of the one is the product a * x of the other); with
    slope 1 ParametricRectifiedLinearUnitFn returns its argument unchanged,
    for every double (the product 1 * x is exact) and every real. *)
Theorem ParametricRectifiedLinearUnitFn_slopes :
  (forall x : float,
     LeakyRectifiedLinearUnitFn x
     = ParametricRectifiedLinearUnitFn 0.01%float x) /\
  (forall x : R,
     LeakyRectifiedLinearUnitFn x
     = ParametricRectifiedLinearUnitFn 0.01%R x) /\
  (forall x : float, ParametricRectifiedLinearUnitFn 1%float x = x) /\
  (forall x : R, ParametricRectifiedLinearUnitFn 1%R x = x).
Proof.
  split; [| split; [| split]]; intro x;
    unfold LeakyRectifiedLinearUnitFn, ParametricRectifiedLinearUnitFn.
  - at_double. change (lit 0.01) with 0.01%float. reflexivity.
  - at_real. replace (Q2R 0.01) with 0.01%R by (unfold Q2R; simpl; lra).
    reflexivity.
  - at_double. destruct (x <? 0)%float; [apply float_mul_one_l | reflexivity].
  - at_real. destruct (ltb x 0%R); [ring | reflexivity].
Qed.

(** X5: with slope 0 ParametricRectifiedLinearUnitFn is
    RectifiedLinearUnitFn on every finite double, up to the sign of zero
    (0 * x is -0 for x < 0), and on every real; at -infinity the product
    0 * x is NaN where RectifiedLinearUnitFn gives 0. *)
Theorem ParametricRectifiedLinearUnitFn_slope_zero :
  (forall x : float,
     is_finite x = true ->
     same_value (ParametricRectifiedLinearUnitFn 0%float x)
                (RectifiedLinearUnitFn x)) /\
  (ParametricRectifiedLinearUnitFn 0%float neg_infinity = nan /\
   RectifiedLinearUnitFn neg_infinity = 0%float) /\
  (forall x : R,
     ParametricRectifiedLinearUnitFn 0%R x = RectifiedLinearUnitFn x).
Proof.
  split; [| split].
  - intros x Hfin.
    unfold ParametricRectifiedLinearUnitFn, RectifiedLinearUnitFn.
    at_double. apply same_value_of_spec.
    destruct (is_finite_cases x Hfin) as [[s E] | [s [m [e E]]]].
    + assert (Hlt : (x <? 0)%float = false)
        by (rewrite ltb_spec, Prim2SF_zero, E; now destruct s).
      assert (Hgt : (0 <? x)%float = false)
        by (rewrite ltb_spec, Prim2SF_zero, E; now destruct s).
      rewrite Hlt, Hgt. right. rewrite E. now destruct s.
    + destruct s.
      * assert (Hlt : (x <? 0)%float = true)
          by (now rewrite ltb_spec, Prim2SF_zero, E).
        assert (Hgt : (0 <? x)%float = false)
          by (now rewrite ltb_spec, Prim2SF_zero, E).
        rewrite Hlt, Hgt. right.
        rewrite mul_spec, Prim2SF_zero, E. reflexivity.
      * assert (Hlt : (x <? 0)%float = false)
          by (now rewrite ltb_spec, Prim2SF_zero, E).
        assert (Hgt : (0 <? x)%float = true)
          by (now rewrite ltb_spec, Prim2SF_zero, E).
        rewrite Hlt, Hgt. now left.
  - split; reflexivity.
  - intro x.
    unfold ParametricRectifiedLinearUnitFn, RectifiedLinearUnitFn. at_real.
    destruct (Rlt_le_dec x 0) as [Hlt | Hge].
    + rewrite (real_ltb_true Hlt), real_ltb_false by lra. ring.
    + rewrite (real_ltb_false Hge).
      destruct (Rlt_le_dec 0 x) as [Hgt | Hle].
      * now rewrite (real_ltb_true Hgt).
      * rewrite (real_ltb_false Hle). lra.
Qed.

Lemma ParametricRectifiedLinearUnitFn_slope_zero_witness :
  is_finite (-2)%float = true /\
  same_value (ParametricRectifiedLinearUnitFn 0%float (-2)%float)
             (RectifiedLinearUnitFn (-2)%float).
Proof.
  split; [vm_compute; reflexivity |].
  apply (proj1 ParametricRectifiedLinearUnitFn_slope_zero). reflexivity.
Defined.

(** ** Doubles: where exp overflows or underflows *)
Section Saturation.
Local Open Scope float_scope.

Lemma binary_round_aux_sign_clear (m e : Z) (l : location) :
  sign_clear (binary_round_aux prec emax false m e l).
Proof.
  unfold binary_round_aux.
  destruct (shr_fexp prec emax m e l) as [mrs' e'].
  destruct (shr_fexp prec emax _ e' loc_Exact) as [mrs'' e''].
  destruct (shr_m mrs''); try easy.
  destruct (e'' <=? emax - prec)%Z; easy.
Qed.

(** 1 + e has its sign bit clear when e is not below zero *)
Lemma SFadd_one_sign_clear (E : spec_float) :
  SFltb E (S754_zero false) = false ->
  sign_clear (SF64add (Prim2SF 1) E).
Proof.
  rewrite Prim2SF_one.
  destruct E as [s | s | | s m e]; try destruct s; try easy.
  intros _. unfold SF64add, SFadd, binary_normalize, cond_Zopp.
  match goal with
  | |- context [(Z.pos ?a + Z.pos ?b)%Z] =>
      change (Z.pos a + Z.pos b)%Z with (Z.pos (a + b))
  end.
  unfold binary_round.
  destruct (shl_align _ _ _) as [mz ez].
  apply binary_round_aux_sign_clear.
Qed.

(** 1 / d is not below zero when d has its sign bit clear *)
Lemma SFdiv_one_not_neg (D : spec_float) :
  sign_clear D ->
  SFltb (SF64div (Prim2SF 1) D) (S754_zero false) = false.
Proof.
  rewrite Prim2SF_one.
  destruct D as [s | s | | s m e]; simpl; try (intros ->; reflexivity);
    try reflexivity.
  intros ->. unfold SF64div, SFdiv.
  destruct (SFdiv_core_binary prec emax _ _ _ _) as [[mz ez] lz].
  apply binary_round_aux_not_neg.
Qed.

(** c - c is +0 for a finite c *)
Lemma float_sub_diag (c : float) : is_finite c = true -> c - c = 0.
Proof.
  intro Hfin. apply Prim2SF_inj. rewrite sub_spec, Prim2SF_zero.
  destruct (is_finite_cases c Hfin) as [[s E] | [s [m [e E]]]]; rewrite E.
  - now destruct s.
  - unfold SF64sub, SFsub. now rewrite Z.sub_diag.
Qed.

End Saturation.

(** X6: HyperbolicTangentFn returns NaN as soon as exp(x) or exp(-x)
    overflows to +infinity (for the reference <cmath>, at x = 1000), for
    every <cmath> and whatever the other exponential is. *)
Theorem HyperbolicTangentFn_overflow (M : CMath float) (x : float) :
  exp x = infinity \/ exp (- x)%float = infinity ->
  HyperbolicTangentFn x = nan.
Proof.
  intro H. unfold HyperbolicTangentFn; at_double.
  apply Prim2SF_inj.
  rewrite div_spec, sub_spec, add_spec, Prim2SF_nan.
  destruct H as [H | H]; rewrite H, Prim2SF_infinity.
  - destruct (Prim2SF (exp (- x)%float)) as [s | s | | s m e];
      try destruct s; reflexivity.
  - destruct (Prim2SF (exp x)) as [s | s | | s m e];
      try destruct s; reflexivity.
Qed.

Lemma HyperbolicTangentFn_overflow_witness :
  RefLibm.exp 1000%float = infinity /\
  HyperbolicTangentFn (cmath := reference_cmath) 1000%float = nan.
Proof.
  split; [vm_compute; reflexivity |].
  apply (HyperbolicTangentFn_overflow reference_cmath). left.
  vm_compute; reflexivity.
Defined.

(** X7: LogisticFn on doubles, for every <cmath>: it is exactly 0 where
    exp(-x) overflows to +infinity, exactly 1 where exp(-x) underflows to 0,
    and never below zero as long as exp(-x) is not. *)
Theorem LogisticFn_saturation (M : CMath float) (x : float) :
  (exp (- x)%float = infinity -> LogisticFn x = 0%float) /\
  (exp (- x)%float = 0%float -> LogisticFn x = 1%float) /\
  ((exp (- x) <? 0)%float = false -> (LogisticFn x <? 0)%float = false).
Proof.
  unfold LogisticFn; at_double.
  split; [| split]; intro H.
  - now rewrite H.
  - now rewrite H.
  - rewrite ltb_spec, Prim2SF_zero in H.
    rewrite ltb_spec, div_spec, add_spec, Prim2SF_zero.
    now apply SFdiv_one_not_neg, SFadd_one_sign_clear.
Qed.

Lemma LogisticFn_saturation_witness :
  (RefLibm.exp (- -1000)%float = infinity /\
   LogisticFn (cmath := reference_cmath) (-1000)%float = 0%float) /\
  (RefLibm.exp (- 1000)%float = 0%float /\
   LogisticFn (cmath := reference_cmath) 1000%float = 1%float) /\
  ((RefLibm.exp (- 2) <? 0)%float = false /\
   (LogisticFn (cmath := reference_cmath) 2 <? 0)%float = false).
Proof.
  split; [| split]; (split; [vm_compute; reflexivity |]).
  - apply (proj1 (LogisticFn_saturation reference_cmath (-1000)%float)).
    vm_compute; reflexivity.
  - apply (proj1 (proj2 (LogisticFn_saturation reference_cmath 1000%float))).
    vm_compute; reflexivity.
  - apply (proj2 (proj2 (LogisticFn_saturation reference_cmath 2%float))).
    vm_compute; reflexivity.
Defined.

(** X9: GaussianRBFFn with width sigma = 0 divides by zero: at the centre
    (x = c, finite) the exponent is 0/0 and the result NaN, away from it the
    exponent is -infinity and the result 0; for every <cmath> with
    pow(+0, 2) = +0, exp(NaN) = NaN and exp(-infinity) = +0. *)
Theorem GaussianRBFFn_zero_width (M : CMath float) :
  pow 0%float 2 = 0%float ->
  exp nan = nan ->
  exp neg_infinity = 0%float ->
  (forall c : float, is_finite c = true -> GaussianRBFFn c c 0%float = nan) /\
  (forall x c : float,
     (0 <? pow (x - c)%float 2)%float = true ->
     GaussianRBFFn x c 0%float = 0%float).
Proof.
  intros Hp Hnan Hinf. split.
  - intros c Hfin. unfold GaussianRBFFn; at_double.
    rewrite (float_sub_diag c Hfin), Hp.
    change (- 0 / (lit 2 * 0))%float with nan. exact Hnan.
  - intros x c Hpos. unfold GaussianRBFFn; at_double.
    rewrite Hp. change (lit 2 * 0)%float with 0%float.
    replace (- pow (x - c)%float 2 / 0)%float with neg_infinity;
      [exact Hinf |].
    apply Prim2SF_inj. rewrite div_spec, opp_spec, Prim2SF_zero.
    rewrite ltb_spec, Prim2SF_zero in Hpos.
    destruct (Prim2SF (pow (x - c)%float 2)) as [s | s | | s m e];
      try destruct s; try discriminate; reflexivity.
Qed.

Lemma GaussianRBFFn_zero_width_witness :
  (is_finite 5%float = true /\
   GaussianRBFFn (cmath := reference_cmath) 5%float 5%float 0%float = nan) /\
  ((0 <? RefLibm.pow (1 - 0) 2)%float = true /\
   GaussianRBFFn (cmath := reference_cmath) 1%float 0%float 0%float
   = 0%float).
Proof.
  split; (split; [vm_compute; reflexivity |]).
  - apply (proj1 (GaussianRBFFn_zero_width reference_cmath
                    eq_refl eq_refl eq_refl)).
    vm_compute; reflexivity.
  - apply (proj2 (GaussianRBFFn_zero_width reference_cmath
                    eq_refl eq_refl eq_refl)).
    vm_compute; reflexivity.
Defined.

(** ** Doubles: division by one is exact *)
Section ExactQuotient.
Local Open Scope float_scope.

Lemma binary_round_aux_exact (s : bool) (m : positive) (e : Z) :
  SpecFloat.bounded prec emax m e = true ->
  binary_round_aux prec emax s (Zpos m) e loc_Exact = S754_finite s m e.
Proof.
  unfold SpecFloat.bounded, canonical_mantissa. intro H.
  apply andb_prop in H. destruct H as [Hc He].
  apply Z.eqb_eq in Hc.
  unfold binary_round_aux, shr_fexp. cbn [Zdigits2].
  rewrite Hc, Z.sub_diag.
  cbn [shr shr_record_of_loc shr_m loc_of_shr_record round_nearest_even].
  cbn [Zdigits2]. rewrite Hc, Z.sub_diag. cbn [shr shr_record_of_loc shr_m].
  now rewrite He.
Qed.

Lemma div_eucl_shift (m : positive) (n : Z) :
  (52 <= n)%Z ->
  Z.div_eucl (Z.shiftl (Z.pos m) n) 4503599627370496
  = ((Z.pos m * 2 ^ (n - 52))%Z, 0%Z).
Proof.
  intro Hn. rewrite Z.shiftl_mul_pow2 by lia.
  replace (2 ^ n)%Z with (2 ^ (n - 52) * 4503599627370496)%Z
    by (change 4503599627370496%Z with (2 ^ 52)%Z;
        rewrite <- Z.pow_add_r by lia; f_equal; lia).
  pose proof (Z_div_mod (Z.pos m * (2 ^ (n - 52) * 4503599627370496))
                        4503599627370496 eq_refl) as H.
  destruct (Z.div_eucl _ _) as [q r]. destruct H as [H1 H2].
  assert (q = (Z.pos m * 2 ^ (n - 52))%Z) by nia.
  subst q. f_equal. lia.
Qed.

(** the quotient by 1 has the mantissa of x, at the exponent of x in the
    lowest binade and doubled one exponent below in the others *)
Lemma SFdiv_one_finite (s : bool) (m : positive) (e : Z) :
  SpecFloat.bounded prec emax m e = true ->
  SF64div (S754_finite s m e) (S754_finite false 4503599627370496 (-52))
  = S754_finite s m e.
Proof.
  intro Hb. generalize Hb.
  unfold SpecFloat.bounded, canonical_mantissa. intro H.
  apply andb_prop in H. destruct H as [Hc He].
  apply Z.eqb_eq in Hc. apply Z.leb_le in He.
  unfold SF64div, SFdiv. rewrite xorb_false_r.
  unfold SFdiv_core_binary.
  change (Zdigits2 (Z.pos 4503599627370496)) with 53%Z.
  cbn [Zdigits2].
  set (d := Z.pos (digits2_pos m)) in *.
  unfold fexp, emin in Hc |- *.
  change prec with 53%Z in Hc, He |- *.
  change emax with 1024%Z in Hc, He |- *.
  destruct (Z.eq_dec e (-1074)) as [Hemin | Hnorm].
  - replace (Z.min (Z.max (d + e - (53 + -52) - 53) (3 - 1024 - 53))
                   (e - -52)) with e by lia.
    replace (e - -52 - e)%Z with 52%Z by lia.
    change (match 52%Z with
            | Z0 => Z.pos m
            | Z.pos _ => Z.shiftl (Z.pos m) 52
            | Z.neg _ => 0%Z
            end) with (Z.shiftl (Z.pos m) 52).
    rewrite div_eucl_shift by lia.
    change (Z.pos m * 2 ^ (52 - 52))%Z with (Z.pos m * 1)%Z.
    rewrite Z.mul_1_r.
    change (new_location 4503599627370496 0) with loc_Exact.
    now apply binary_round_aux_exact.
  - assert (Hd : d = 53%Z) by lia.
    replace (Z.min (Z.max (d + e - (53 + -52) - 53) (3 - 1024 - 53))
                   (e - -52)) with (e - 1)%Z by lia.
    replace (e - -52 - (e - 1))%Z with 53%Z by lia.
    change (match 53%Z with
            | Z0 => Z.pos m
            | Z.pos _ => Z.shiftl (Z.pos m) 53
            | Z.neg _ => 0%Z
            end) with (Z.shiftl (Z.pos m) 53).
    rewrite div_eucl_shift by lia.
    change (Z.pos m * 2 ^ (53 - 52))%Z with (Z.pos m * 2)%Z.
    replace (Z.pos m * 2)%Z with (Z.pos (xO m)) by lia.
    change (new_location 4503599627370496 0) with loc_Exact.
    unfold binary_round_aux.
    unfold shr_fexp at 1. cbn [Zdigits2 digits2_pos shr_record_of_loc].
    rewrite Pos2Z.inj_succ. fold d. rewrite Hd.
    unfold fexp, emin. change prec with 53%Z. change emax with 1024%Z.
    replace (Z.max (Z.succ 53 + (e - 1) - 53) (3 - 1024 - 53) - (e - 1))%Z
      with 1%Z by lia.
    cbn [shr SpecFloat.iter_pos shr_1 shr_m loc_of_shr_record
         round_nearest_even orb].
    replace (e - 1 + 1)%Z with e by lia.
    unfold shr_fexp. cbn [Zdigits2]. fold d. rewrite Hd.
    unfold fexp, emin. change prec with 53%Z. change emax with 1024%Z.
    replace (Z.max (53 + e - 53) (3 - 1024 - 53) - e)%Z with 0%Z by lia.
    cbn [shr shr_record_of_loc shr_m].
    replace (e <=? 1024 - 53)%Z with true
      by (symmetry; apply Z.leb_le; lia).
    reflexivity.
Qed.

Lemma float_div_one_r (x : float) : x / 1 = x.
Proof.
  apply Prim2SF_inj. rewrite div_spec, Prim2SF_one.
  pose proof (Prim2SF_valid x) as Hv.
  destruct (Prim2SF x) as [s | s | | s m e]; try reflexivity.
  - simpl. now rewrite xorb_false_r.
  - simpl. now rewrite xorb_false_r.
  - now apply SFdiv_one_finite.
Qed.

End ExactQuotient.

(** X10: SigmoidLinearUnitFn on doubles, for every <cmath>: where exp(-x)
    underflows to 0 the result is x itself (x / 1 is exact); where exp(-x)
    overflows to +infinity the result is a zero for every finite x; and at
    x = -infinity it is NaN once exp(+infinity) = +infinity. *)
Theorem SigmoidLinearUnitFn_saturation (M : CMath float) :
  (forall x : float,
     exp (- x)%float = 0%float -> SigmoidLinearUnitFn x = x) /\
  (forall x : float,
     exp (- x)%float = infinity -> is_finite x = true ->
     (SigmoidLinearUnitFn x =? 0)%float = true) /\
  (exp infinity = infinity -> SigmoidLinearUnitFn neg_infinity = nan).
Proof.
  split; [| split].
  - intros x H. unfold SigmoidLinearUnitFn; at_double.
    rewrite H. change (1 + 0)%float with 1%float. apply float_div_one_r.
  - intros x H Hfin. unfold SigmoidLinearUnitFn; at_double.
    rewrite H. change (1 + infinity)%float with infinity.
    rewrite FloatAxioms.eqb_spec, div_spec, Prim2SF_infinity, Prim2SF_zero.
    destruct (is_finite_cases x Hfin) as [[s E] | [s [m [e E]]]];
      rewrite E; now destruct s.
  - intro H. unfold SigmoidLinearUnitFn; at_double.
    change (- neg_infinity)%float with infinity. now rewrite H.
Qed.

Lemma SigmoidLinearUnitFn_saturation_witness :
  (RefLibm.exp (- 1000)%float = 0%float /\
   SigmoidLinearUnitFn (cmath := reference_cmath) 1000%float = 1000%float) /\
  (RefLibm.exp (- -1000)%float = infinity /\
   is_finite (-1000)%float = true /\
   (SigmoidLinearUnitFn (cmath := reference_cmath) (-1000) =? 0)%float
   = true) /\
  (RefLibm.exp infinity = infinity /\
   SigmoidLinearUnitFn (cmath := reference_cmath) neg_infinity = nan).
Proof.
  pose proof (SigmoidLinearUnitFn_saturation reference_cmath) as [H1 [H2 H3]].
  split; [| split].
  - split; [| apply H1]; vm_compute; reflexivity.
  - split; [| split; [| apply H2]]; vm_compute; reflexivity.
  - split; [| apply H3]; vm_compute; reflexivity.
Defined.

(** X11: MishFn on doubles, for every <cmath> with log(+infinity) =
    +infinity, tanh(+infinity) = 1, log(1) = +0 and tanh(+0) = +0 (Annex F):
    where exp(x) overflows the result is x itself (no NaN, unlike
    HyperbolicTangentFn), and where exp(x) underflows to 0 the result is a
    zero for every finite x. *)
Theorem MishFn_saturation (M : CMath float) (Sp : CMathSpecial float) :
  (forall x : float,
     exp x = infinity -> log infinity = infinity -> tanh infinity = 1%float ->
     MishFn x = x) /\
  (forall x : float,
     exp x = 0%float -> log 1%float = 0%float -> tanh 0%float = 0%float ->
     is_finite x = true ->
     (MishFn x =? 0)%float = true).
Proof.
  split.
  - intros x He Hl Ht. unfold MishFn; at_double.
    rewrite He. change (1 + infinity)%float with infinity.
    rewrite Hl, Ht, float_mul_comm. apply float_mul_one_l.
  - intros x He Hl Ht Hfin. unfold MishFn; at_double.
    rewrite He. change (1 + 0)%float with 1%float. rewrite Hl, Ht.
    rewrite FloatAxioms.eqb_spec, mul_spec, Prim2SF_zero.
    destruct (is_finite_cases x Hfin) as [[s E] | [s [m [e E]]]];
      rewrite E; now destruct s.
Qed.

Lemma MishFn_saturation_witness :
  (RefLibm.exp 1000%float = infinity /\ RefLibm.log infinity = infinity /\
   RefLibmSpecial.tanh infinity = 1%float /\
   MishFn (cmath := reference_cmath) (special := reference_special)
          1000%float = 1000%float) /\
  (RefLibm.exp (-1000)%float = 0%float /\ RefLibm.log 1%float = 0%float /\
   RefLibmSpecial.tanh 0%float = 0%float /\
   is_finite (-1000)%float = true /\
   (MishFn (cmath := reference_cmath) (special := reference_special)
           (-1000) =? 0)%float = true).
Proof.
  pose proof (MishFn_saturation reference_cmath reference_special)
    as [H1 H2].
  split.
  - repeat (split; [vm_compute; reflexivity |]).
    apply H1; vm_compute; reflexivity.
  - repeat (split; [vm_compute; reflexivity |]).
    apply H2; vm_compute; reflexivity.
Defined.

(** X12: GaussianErrorLinearUnitFn on doubles, for every <cmath>: where
    erf(x / sqrt(2)) has rounded to -1 (from about x = -8.4 down) the factor
    1 + erf(...) cancels to 0, and the result is a zero or NaN, not the
    small negative value of the formula. *)
Theorem GaussianErrorLinearUnitFn_cancellation
  (Sp : CMathSpecial float) (x : float) :
  erf (x / PrimFloat.sqrt 2)%float = (-1)%float ->
  (GaussianErrorLinearUnitFn x =? 0)%float = true \/
  is_nan (GaussianErrorLinearUnitFn x) = true.
Proof.
  intro He. unfold GaussianErrorLinearUnitFn; at_double.
  change (lit 2) with 2%float. rewrite He.
  change (1 + -1)%float with 0%float.
  set (h := (lit 1.0 / lit 2.0 * x)%float).
  unfold is_nan.
  rewrite !FloatAxioms.eqb_spec, mul_spec, Prim2SF_zero.
  destruct (Prim2SF h) as [s | s | | s m e]; simpl; auto.
Qed.

Lemma GaussianErrorLinearUnitFn_cancellation_witness :
  RefLibmSpecial.erf (-10 / PrimFloat.sqrt 2)%float = (-1)%float /\
  ((GaussianErrorLinearUnitFn (special := reference_special) (-10)
    =? 0)%float = true \/
   is_nan (GaussianErrorLinearUnitFn (special := reference_special)
             (-10)%float) = true).
Proof.
  split; [vm_compute; reflexivity |].
  apply (GaussianErrorLinearUnitFn_cancellation reference_special).
  vm_compute; reflexivity.
Defined.

(** ** The formulas in exact real arithmetic *)
Section RealFormulas.
Local Open Scope R_scope.

Lemma Q2R_lit2 : Q2R 2 = 2.
Proof. unfold Q2R; simpl; lra. Qed.

Lemma exp_neg_le_1 (y : R) : 0 <= y -> Rtrigo_def.exp (- y) <= 1.
Proof.
  intro Hy. rewrite <- exp_0.
  destruct (Req_dec y 0) as [-> | Hne].
  - rewrite Ropp_0. lra.
  - left. apply exp_increasing. lra.
Qed.

Lemma GaussianFn_real (x : R) : GaussianFn x = Rtrigo_def.exp (- x²).
Proof. unfold GaussianFn, Rsqr; at_real. f_equal. simpl. nra. Qed.

Lemma GaussianRBFFn_real (x c sigma : R) :
  GaussianRBFFn x c sigma = Rtrigo_def.exp (- ((x - c)² / (2 * sigma²))).
Proof.
  unfold GaussianRBFFn, Rsqr; at_real. rewrite Q2R_lit2.
  f_equal. simpl. rewrite !Rmult_1_r. unfold Rdiv. ring.
Qed.

Lemma LogisticFn_real (x : R) :
  LogisticFn x = / (1 + Rtrigo_def.exp (- x)).
Proof. unfold LogisticFn; at_real. unfold Rdiv. ring. Qed.

Lemma tanh_real_bounds (y : R) : -1 < Rtrigo_def.tanh y < 1.
Proof.
  unfold Rtrigo_def.tanh, sinh, cosh.
  pose proof (exp_pos y) as Hp. pose proof (exp_pos (- y)) as Hn.
  replace ((Rtrigo_def.exp y - Rtrigo_def.exp (- y)) / 2
           / ((Rtrigo_def.exp y + Rtrigo_def.exp (- y)) / 2))
    with ((Rtrigo_def.exp y - Rtrigo_def.exp (- y))
          / (Rtrigo_def.exp y + Rtrigo_def.exp (- y))) by (field; lra).
  split.
  - apply Rmult_lt_reg_r
      with (Rtrigo_def.exp y + Rtrigo_def.exp (- y)); [lra |].
    unfold Rdiv. rewrite Rmult_assoc, Rinv_l by lra. lra.
  - apply Rmult_lt_reg_r
      with (Rtrigo_def.exp y + Rtrigo_def.exp (- y)); [lra |].
    unfold Rdiv. rewrite Rmult_assoc, Rinv_l by lra. lra.
Qed.

Lemma tanh_real_pos (y : R) : 0 < y -> 0 < Rtrigo_def.tanh y.
Proof.
  intro Hy. unfold Rtrigo_def.tanh, sinh, cosh.
  pose proof (exp_pos y) as Hp. pose proof (exp_pos (- y)) as Hn.
  assert (Hlt : Rtrigo_def.exp (- y) < Rtrigo_def.exp y)
    by (apply exp_increasing; lra).
  apply Rdiv_lt_0_compat; lra.
Qed.

End RealFormulas.

(** X13: GaussianFn.  In exact real arithmetic it is 1 at 0, even, and
    stays in (0, 1]; on doubles it is 1 at 0 for every <cmath> with
    pow(+0, 2) = +0 and exp(-0) = 1. *)
Theorem GaussianFn_shape :
  (GaussianFn 0%R = 1%R /\
   forall x : R,
     GaussianFn (- x)%R = GaussianFn x /\
     (0 < GaussianFn x <= 1)%R) /\
  (forall M : CMath float,
     pow 0%float 2 = 0%float -> exp (-0)%float = 1%float ->
     GaussianFn 0%float = 1%float).
Proof.
  split; [split |].
  - rewrite GaussianFn_real, Rsqr_0, Ropp_0. apply exp_0.
  - intro x. rewrite !GaussianFn_real, <- Rsqr_neg. split; [reflexivity |].
    split; [apply exp_pos | apply exp_neg_le_1, Rle_0_sqr].
  - intros M Hp He. unfold GaussianFn; at_double. now rewrite Hp.
Qed.

Lemma GaussianFn_shape_witness :
  RefLibm.pow 0%float 2 = 0%float /\ RefLibm.exp (-0)%float = 1%float /\
  GaussianFn (cmath := reference_cmath) 0%float = 1%float.
Proof.
  split; [vm_compute; reflexivity | split; [vm_compute; reflexivity |]].
  apply (proj2 GaussianFn_shape reference_cmath); reflexivity.
Defined.

(** X14: GaussianRBFFn in exact real arithmetic, for a width sigma <> 0:
    it is 1 at the centre, symmetric about the centre, stays in (0, 1],
    does not change with the sign of sigma, and is GaussianFn of the
    distance (x - c) / (sqrt(2) sigma). *)
Theorem GaussianRBFFn_shape (x c sigma : R) :
  sigma <> 0%R ->
  GaussianRBFFn c c sigma = 1%R /\
  GaussianRBFFn (c + x)%R c sigma = GaussianRBFFn (c - x)%R c sigma /\
  (0 < GaussianRBFFn x c sigma <= 1)%R /\
  GaussianRBFFn x c (- sigma)%R = GaussianRBFFn x c sigma /\
  GaussianRBFFn x c sigma
  = GaussianFn ((x - c) / (R_sqrt.sqrt 2 * sigma))%R.
Proof.
  intro Hs.
  assert (Hs2 : (0 < sigma²)%R) by now apply Rlt_0_sqr.
  rewrite !GaussianRBFFn_real, GaussianFn_real.
  split; [| split; [| split; [| split]]].
  - replace (c - c)%R with 0%R by ring. rewrite Rsqr_0.
    unfold Rdiv. rewrite Rmult_0_l, Ropp_0. apply exp_0.
  - replace (c - x - c)%R with (- (c + x - c))%R by ring.
    now rewrite <- Rsqr_neg.
  - split; [apply exp_pos |].
    apply exp_neg_le_1. apply Rmult_le_pos; [apply Rle_0_sqr |].
    left. apply Rinv_0_lt_compat. lra.
  - now rewrite <- Rsqr_neg.
  - f_equal. f_equal.
    assert (Hq : (0 < R_sqrt.sqrt 2)%R) by (apply sqrt_lt_R0; lra).
    rewrite Rsqr_div', Rsqr_mult, Rsqr_sqrt by lra. reflexivity.
Qed.

Lemma GaussianRBFFn_shape_witness :
  (1 <> 0)%R /\ GaussianRBFFn 3%R 3%R 1%R = 1%R.
Proof.
  split; [lra |].
  apply (GaussianRBFFn_shape 0%R 3%R (sigma := 1%R)). lra.
Defined.

(** X15: MultiquadraticsFn in exact real arithmetic: the value at the
    centre is |a|, it is symmetric about the centre and even in a, and it
    lies between |x - c| and |x - c| + |a|. *)
Theorem MultiquadraticsFn_shape (x c a : R) :
  MultiquadraticsFn c c a = Rabs a /\
  MultiquadraticsFn (c + x)%R c a = MultiquadraticsFn (c - x)%R c a /\
  MultiquadraticsFn x c (- a)%R = MultiquadraticsFn x c a /\
  (Rabs (x - c) <= MultiquadraticsFn x c a <= Rabs (x - c) + Rabs a)%R.
Proof.
  rewrite !MultiquadraticsFn_real.
  split; [| split; [| split; [| split]]].
  - replace (c - c)%R with 0%R by ring.
    rewrite Rsqr_0, Rplus_0_l. apply sqrt_Rsqr_abs.
  - replace (c - x - c)%R with (- (c + x - c))%R by ring.
    now rewrite <- Rsqr_neg.
  - now rewrite <- Rsqr_neg.
  - rewrite <- (sqrt_Rsqr_abs (x - c)). apply sqrt_le_1.
    + apply Rle_0_sqr.
    + apply Rplus_le_le_0_compat; apply Rle_0_sqr.
    + pose proof (Rle_0_sqr a). lra.
  - pose proof (Rabs_pos (x - c)) as Hx. pose proof (Rabs_pos a) as Ha.
    rewrite <- (sqrt_Rsqr (Rabs (x - c) + Rabs a)) by lra.
    apply sqrt_le_1.
    + apply Rplus_le_le_0_compat; apply Rle_0_sqr.
    + apply Rle_0_sqr.
    + rewrite (Rsqr_abs (x - c)), (Rsqr_abs a). unfold Rsqr. nra.
Qed.

(** X16: LogisticFn in exact real arithmetic: it stays strictly between 0
    and 1, is 1/2 at 0, and LogisticFn(x) + LogisticFn(-x) = 1. *)
Theorem LogisticFn_shape (x : R) :
  (0 < LogisticFn x < 1)%R /\
  LogisticFn 0%R = (1 / 2)%R /\
  (LogisticFn x + LogisticFn (- x) = 1)%R.
Proof.
  rewrite !LogisticFn_real, Ropp_involutive, Ropp_0, exp_0.
  pose proof (exp_pos x) as Hp. pose proof (exp_pos (- x)) as Hn.
  assert (Hprod : (Rtrigo_def.exp x * Rtrigo_def.exp (- x) = 1)%R)
    by (rewrite <- exp_plus, Rplus_opp_r; apply exp_0).
  split; [split | split].
  - apply Rinv_0_lt_compat. lra.
  - rewrite <- Rinv_1 at 2. apply Rinv_lt_contravar; lra.
  - lra.
  - rewrite exp_Ropp. field. repeat split; lra.
Qed.

(** X17: HyperbolicTangentFn in exact real arithmetic is the hyperbolic
    tangent sinh / cosh, stays strictly between -1 and 1, and equals
    2 LogisticFn(2 x) - 1. *)
Theorem HyperbolicTangentFn_real_tanh (x : R) :
  HyperbolicTangentFn x = Rtrigo_def.tanh x /\
  (-1 < HyperbolicTangentFn x < 1)%R /\
  HyperbolicTangentFn x = (2 * LogisticFn (2 * x) - 1)%R.
Proof.
  assert (Ht : HyperbolicTangentFn x = Rtrigo_def.tanh x).
  { unfold HyperbolicTangentFn, Rtrigo_def.tanh, sinh, cosh; at_real.
    pose proof (exp_pos x). pose proof (exp_pos (- x)).
    field. lra. }
  split; [exact Ht | split].
  - rewrite Ht. apply tanh_real_bounds.
  - rewrite LogisticFn_real.
    unfold HyperbolicTangentFn; at_real.
    pose proof (exp_pos x) as Hp. pose proof (exp_pos (- x)) as Hn.
    assert (Hprod : (Rtrigo_def.exp x * Rtrigo_def.exp (- x) = 1)%R)
      by (rewrite <- exp_plus, Rplus_opp_r; apply exp_0).
    replace (- (2 * x))%R with (- x + - x)%R by ring.
    rewrite exp_plus, exp_Ropp. field. repeat split; nra.
Qed.

(** ** More formulas in exact real arithmetic *)
Section RealFormulasMore.
Local Open Scope R_scope.

Lemma SoftplusFn_real (x : R) : SoftplusFn x = ln (1 + Rtrigo_def.exp x).
Proof. unfold SoftplusFn; now at_real. Qed.

Lemma SigmoidLinearUnitFn_real (x : R) :
  SigmoidLinearUnitFn x = x * / (1 + Rtrigo_def.exp (- x)).
Proof. unfold SigmoidLinearUnitFn; now at_real. Qed.

End RealFormulasMore.

(** X18: SoftplusFn in exact real arithmetic: SoftplusFn(x) -
    SoftplusFn(-x) = x, SoftplusFn(0) = ln 2, and SoftplusFn(x) =
    -ln(LogisticFn(-x)). *)
Theorem SoftplusFn_identities (x : R) :
  (SoftplusFn x - SoftplusFn (- x) = x)%R /\
  SoftplusFn 0%R = ln 2 /\
  SoftplusFn x = (- ln (LogisticFn (- x)))%R.
Proof.
  rewrite !SoftplusFn_real, LogisticFn_real, Ropp_involutive, exp_0.
  pose proof (exp_pos x) as Hp. pose proof (exp_pos (- x)) as Hn.
  split; [| split].
  - replace (1 + Rtrigo_def.exp x)%R
      with (Rtrigo_def.exp x * (1 + Rtrigo_def.exp (- x)))%R.
    + rewrite ln_mult, ln_exp by lra. ring.
    + rewrite Rmult_plus_distr_l, <- exp_plus, Rplus_opp_r, exp_0. ring.
  - f_equal; lra.
  - rewrite ln_Rinv by lra. ring.
Qed.

(** X19: SigmoidLinearUnitFn in exact real arithmetic:
    SigmoidLinearUnitFn(x) - SigmoidLinearUnitFn(-x) = x, and the result
    lies between 0 and x. *)
Theorem SigmoidLinearUnitFn_shape (x : R) :
  (SigmoidLinearUnitFn x - SigmoidLinearUnitFn (- x) = x)%R /\
  ((0 <= x)%R -> (0 <= SigmoidLinearUnitFn x <= x)%R) /\
  ((x <= 0)%R -> (x <= SigmoidLinearUnitFn x <= 0)%R).
Proof.
  rewrite !SigmoidLinearUnitFn_real, Ropp_involutive.
  pose proof (exp_pos x) as Hp. pose proof (exp_pos (- x)) as Hn.
  assert (Hl : (0 < / (1 + Rtrigo_def.exp (- x)) < 1)%R).
  { split; [apply Rinv_0_lt_compat; lra |].
    rewrite <- Rinv_1 at 2. apply Rinv_lt_contravar; lra. }
  split; [| split].
  - rewrite exp_Ropp. field. repeat split; lra.
  - intro Hx. nra.
  - intro Hx. nra.
Qed.

Lemma SigmoidLinearUnitFn_shape_witness :
  (0 <= 2)%R /\ (0 <= SigmoidLinearUnitFn 2%R <= 2)%R.
Proof.
  split; [lra |].
  apply (proj1 (proj2 (SigmoidLinearUnitFn_shape 2%R))). lra.
Defined.

(** X20: ExponentialLinearUnitFn.  In exact real arithmetic it is 0 at 0,
    the identity above 0, and stays above -a for a scale a > 0.  On
    doubles it is the identity above 0, and a NaN argument takes the
    exponential branch and comes back as NaN once exp(NaN) = NaN. *)
Theorem ExponentialLinearUnitFn_shape :
  (forall a x : R,
     ExponentialLinearUnitFn a 0%R = 0%R /\
     ((0 < x)%R -> ExponentialLinearUnitFn a x = x) /\
     ((0 < a)%R -> (- a < ExponentialLinearUnitFn a x)%R)) /\
  (forall (M : CMath float) (a x : float),
     ((0 <? x)%float = true -> ExponentialLinearUnitFn a x = x) /\
     (exp nan = nan -> ExponentialLinearUnitFn a nan = nan)).
Proof.
  split.
  - intros a x. unfold ExponentialLinearUnitFn; at_real.
    split; [| split].
    + rewrite real_ltb_false by lra. rewrite exp_0. ring.
    + intro Hx. now rewrite real_ltb_true.
    + intro Ha. pose proof (exp_pos x) as Hp.
      destruct (Rlt_le_dec 0 x) as [Hx | Hx].
      * rewrite (real_ltb_true Hx). lra.
      * rewrite (real_ltb_false Hx). nra.
  - intros M a x. unfold ExponentialLinearUnitFn; at_double.
    split.
    + intro Hx. now rewrite Hx.
    + intro Hn. change (0 <? nan)%float with false. cbv iota.
      rewrite Hn. change (nan - 1)%float with nan.
      apply Prim2SF_inj. rewrite mul_spec, Prim2SF_nan.
      now destruct (Prim2SF a).
Qed.

Lemma ExponentialLinearUnitFn_shape_witness :
  ((0 < 2)%R /\ (- 2 < ExponentialLinearUnitFn 2%R (-5)%R)%R) /\
  (RefLibm.exp nan = nan /\
   ExponentialLinearUnitFn (cmath := reference_cmath) 3%float nan = nan).
Proof.
  split; (split; [first [lra | vm_compute; reflexivity] |]).
  - apply (proj2 (proj2 (proj1 ExponentialLinearUnitFn_shape 2%R (-5)%R))).
    lra.
  - apply (proj2 (proj2 ExponentialLinearUnitFn_shape
                    reference_cmath 3%float 0%float)).
    vm_compute; reflexivity.
Defined.

(** X21: ScaledExponentialLinearUnitFn is 1.0507 times
    ExponentialLinearUnitFn with scale 1.67326: for every x in exact real
    arithmetic, and on doubles for every x above 0 (below 0 the two
    products are associated differently). *)
Theorem ScaledExponentialLinearUnitFn_ExponentialLinearUnitFn :
  (forall x : R,
     ScaledExponentialLinearUnitFn x
     = (1.0507 * ExponentialLinearUnitFn 1.67326 x)%R) /\
  (forall (M : CMath float) (x : float),
     (0 <? x)%float = true ->
     ScaledExponentialLinearUnitFn x
     = (1.0507 * ExponentialLinearUnitFn 1.67326 x)%float).
Proof.
  split.
  - intro x.
    unfold ScaledExponentialLinearUnitFn, ExponentialLinearUnitFn; at_real.
    replace (Q2R 1.0507) with 1.0507%R by (unfold Q2R; simpl; lra).
    replace (Q2R 1.67326) with 1.67326%R by (unfold Q2R; simpl; lra).
    destruct (Rlt_le_dec x 0) as [Hlt | Hge].
    + rewrite (real_ltb_true Hlt), real_ltb_false by lra. ring.
    + rewrite (real_ltb_false Hge).
      destruct (Rlt_le_dec 0 x) as [Hgt | Hle].
      * now rewrite (real_ltb_true Hgt).
      * rewrite (real_ltb_false Hle).
        replace x with 0%R by lra. rewrite exp_0. ring.
  - intros M x Hx.
    unfold ScaledExponentialLinearUnitFn, ExponentialLinearUnitFn; at_double.
    now rewrite Hx, (proj2 (gt_zero_number Hx)).
Qed.

Lemma ScaledExponentialLinearUnitFn_ExponentialLinearUnitFn_witness :
  (0 <? 2)%float = true /\
  ScaledExponentialLinearUnitFn (cmath := reference_cmath) 2%float
  = (1.0507
     * ExponentialLinearUnitFn (cmath := reference_cmath) 1.67326 2)%float.
Proof.
  split; [vm_compute; reflexivity |].
  apply (proj2 ScaledExponentialLinearUnitFn_ExponentialLinearUnitFn
               reference_cmath).
  vm_compute; reflexivity.
Defined.

(** X23: MishFn in exact real arithmetic (whatever erf is): it is 0 at 0
    and lies strictly between 0 and x for every x <> 0. *)
Theorem MishFn_shape (erf_R : R -> R) (x : R) :
  MishFn (special := real_special erf_R) 0%R = 0%R /\
  ((0 < x)%R -> (0 < MishFn (special := real_special erf_R) x < x)%R) /\
  ((x < 0)%R -> (x < MishFn (special := real_special erf_R) x < 0)%R).
Proof.
  unfold MishFn; at_real. cbn [tanh real_special].
  pose proof (SoftplusFn_real_pos x) as Hs.
  rewrite SoftplusFn_real in Hs.
  pose proof (tanh_real_bounds (ln (1 + Rtrigo_def.exp x))) as [_ Hlt].
  pose proof (tanh_real_pos Hs) as Hgt.
  split; [ring | split]; intro Hx; nra.
Qed.

Lemma MishFn_shape_witness :
  (0 < 2)%R /\
  (0 < MishFn (special := real_special (fun _ => 0%R)) 2%R < 2)%R.
Proof.
  split; [lra |].
  apply (proj1 (proj2 (MishFn_shape (fun _ => 0%R) 2%R))). lra.
Defined.

(** X8: ParametricRectifiedLinearUnitFn in exact real arithmetic, for a
    slope 0 <= a <= 1, is the greater of x and a*x; so is
    LeakyRectifiedLinearUnitFn with a = 0.01. *)
Theorem ParametricRectifiedLinearUnitFn_max (a x : R) :
  (0 <= a <= 1)%R ->
  ParametricRectifiedLinearUnitFn a x = Rmax x (a * x) /\
  LeakyRectifiedLinearUnitFn x = Rmax x (0.01 * x).
Proof.
  intro Ha.
  unfold LeakyRectifiedLinearUnitFn, ParametricRectifiedLinearUnitFn; at_real.
  replace (Q2R 0.01) with 0.01%R by (unfold Q2R; simpl; lra).
  destruct (Rlt_le_dec x 0) as [Hlt | Hge].
  - rewrite (real_ltb_true Hlt). split; rewrite Rmax_right; nra.
  - rewrite (real_ltb_false Hge). split; rewrite Rmax_left; nra.
Qed.

Lemma ParametricRectifiedLinearUnitFn_max_witness :
  (0 <= 0.25 <= 1)%R /\
  ParametricRectifiedLinearUnitFn 0.25%R (-4)%R = Rmax (-4) (0.25 * -4).
Proof.
  split; [lra |].
  apply (ParametricRectifiedLinearUnitFn_max (a := 0.25%R) (-4)%R). lra.
Defined.

(** ** Doubles: negating a linear form *)
Section LinearSymmetry.
Local Open Scope float_scope.

Lemma SFmul_opp_r (a x : spec_float) :
  SF64mul a (SFopp x) = SFopp (SF64mul a x).
Proof.
  destruct a as [sa | sa | | sa ma ea], x as [sx | sx | | sx mx ex];
    try (simpl; now rewrite negb_xorb_r); try reflexivity.
  unfold SF64mul, SFmul, SFopp at 1.
  rewrite <- negb_xorb_r. apply binary_round_aux_opp.
Qed.

Lemma cond_Zopp_negb (s : bool) (z : Z) :
  cond_Zopp (negb s) z = (- cond_Zopp s z)%Z.
Proof. destruct s; simpl; lia. Qed.

(** (-p) + (-q) is the opposite of p + q, unless both are the exact
    zero +0 *)
Lemma SFadd_opp (p q : spec_float) :
  SF64add (SFopp p) (SFopp q) = SFopp (SF64add p q) \/
  (SF64add (SFopp p) (SFopp q) = S754_zero false /\
   SF64add p q = S754_zero false).
Proof.
  destruct p as [sp | sp | | sp mp ep], q as [sq | sq | | sq mq eq];
    try (destruct sp, sq; simpl; auto; fail);
    try (destruct sp; simpl; auto; fail);
    try (destruct sq; simpl; auto; fail);
    try (simpl; auto; fail).
  unfold SF64add. cbn [SFadd SFopp].
  rewrite !cond_Zopp_negb.
  set (ez := Z.min ep eq).
  set (A := cond_Zopp sp (Zpos (fst (shl_align mp ep ez)))).
  set (B := cond_Zopp sq (Zpos (fst (shl_align mq eq ez)))).
  destruct (Z.eq_dec (A + B) 0) as [Hz | Hnz].
  - right. replace (- A + - B)%Z with 0%Z by lia. rewrite Hz. auto.
  - left. replace (- A + - B)%Z with (- (A + B))%Z by lia.
    now apply binary_normalize_opp.
Qed.

Lemma SFadd_zero_r (X : spec_float) :
  SF64add X (S754_zero false) = X \/
  SFeqb (SF64add X (S754_zero false)) X = true.
Proof. destruct X as [s | s | | s m e]; try destruct s; simpl; auto. Qed.

End LinearSymmetry.

(** X22: LinearFn.  In exact real arithmetic linear forms compose into a
    linear form and LinearFn(1, x, 0) is IdentityFn(x).  On doubles
    LinearFn(1, x, 0) is x (as +0 when x is -0), and negating x and b
    negates the result: LinearFn(a, -x, -b) and -LinearFn(a, x, b) are the
    same value. *)
Theorem LinearFn_composition :
  (forall a b c d x : R,
     LinearFn a (LinearFn c x d) b = LinearFn (a * c) x (a * d + b) /\
     LinearFn 1 x 0 = IdentityFn x)%R /\
  (forall a x b : float,
     same_value (LinearFn 1%float x 0%float) (IdentityFn x) /\
     same_value (LinearFn a (- x)%float (- b)%float)
                (- LinearFn a x b)%float).
Proof.
  split.
  - intros a b c d x. unfold LinearFn, IdentityFn; at_real. split; ring.
  - intros a x b. unfold LinearFn, IdentityFn; at_double. split.
    + rewrite float_mul_one_l. apply same_value_of_spec.
      rewrite add_spec, Prim2SF_zero. apply SFadd_zero_r.
    + apply same_value_of_spec.
      rewrite !opp_spec, !add_spec, !mul_spec, !opp_spec, SFmul_opp_r.
      destruct (SFadd_opp (SF64mul (Prim2SF a) (Prim2SF x)) (Prim2SF b))
        as [E | [E1 E2]].
      * now left.
      * right. now rewrite E1, E2.
Qed.
